(** * produce_podcast.py: script parsing, batch synthesis and run report

    A shallow embedding of [src/podcast_generator/produce_podcast.py].

    - Python [str] values are sequences of Unicode code points ([list N]);
      slicing, [replace], [startswith] and [strip] work on code points.
    - Values decoded by [json.loads] are the inductive [pyval]; a JSON object
      is a [gmap] from keys to values.
    - [print], the calls to the text-to-speech service and the files written
      are effects on a [world]; exceptions (including [SystemExit], which
      [sys.exit] raises) are the second component of the monad [M].
    - Library functions are section variables: [json_loads] (the decoder of
      the [json] module), [is_decimal] (the class [\d] of the [re] module on
      [str] patterns) and [path_join] (the operator [/] of [pathlib]).
    - What a run reads from outside is the record [env]: the files, the
      clock, and the answers of the service and of the file system to each
      request.
    - The arXiv mapping is a dictionary from strings to strings, the shape
      its producer writes.  File names are split as [posixpath] does.
      Creating the output directory and writing the report are taken to
      succeed.
    - The module-level code, which loads [.env] and checks the API key
      before [main] is entered, works on the variables of the process, a
      dictionary; [putenv] tells what the platform does with an assignment
      and [client_ok] whether the client of the service is built. *)

From Stdlib Require Import ZArith NArith List String Ascii Lia Bool DecimalNat.
From stdpp Require Import base option list gmap.

Set Warnings "-register-all".
#[local] Open Scope N_scope.

(** ** Python strings *)

Abbreviation pystr := (list N).

Definition utf8_feed (st : pystr * N * nat) (b : N) : pystr * N * nat :=
  let '(out, acc, k) := st in
  match k with
  | S k' =>
      let acc' := acc * 64 + b mod 64 in
      match k' with
      | O => (out ++ [acc'], 0, O)
      | _ => (out, acc', k')
      end
  | O =>
      if b <? 128 then (out ++ [b], 0, O)
      else if b <? 224 then (out, b mod 32, 1%nat)
      else if b <? 240 then (out, b mod 16, 2%nat)
      else (out, b mod 8, 3%nat)
  end.

(** A source literal: the code points of a UTF-8 encoded string. *)
Definition lit (s : string) : pystr :=
  (fold_left utf8_feed (map N_of_ascii (list_ascii_of_string s)) ([], 0, O)).1.1.

Fixpoint uint_digits (d : Decimal.uint) : pystr :=
  match d with
  | Decimal.Nil => []
  | Decimal.D0 d => 48 :: uint_digits d
  | Decimal.D1 d => 49 :: uint_digits d
  | Decimal.D2 d => 50 :: uint_digits d
  | Decimal.D3 d => 51 :: uint_digits d
  | Decimal.D4 d => 52 :: uint_digits d
  | Decimal.D5 d => 53 :: uint_digits d
  | Decimal.D6 d => 54 :: uint_digits d
  | Decimal.D7 d => 55 :: uint_digits d
  | Decimal.D8 d => 56 :: uint_digits d
  | Decimal.D9 d => 57 :: uint_digits d
  end.

(** [f'{idx}'] for a non-negative index. *)
Definition str_of_nat (n : nat) : pystr := uint_digits (Nat.to_uint n).

(** [f'{n}'] for an [int]. *)
Definition str_of_Z (z : Z) : pystr :=
  match Z.to_int z with
  | Decimal.Pos d => uint_digits d
  | Decimal.Neg d => 45 :: uint_digits d
  end.

(** [s.startswith(p)] *)
Fixpoint startswith (s p : pystr) : bool :=
  match p, s with
  | [], _ => true
  | _ :: _, [] => false
  | a :: p', b :: s' => (a =? b) && startswith s' p'
  end.

(** [s.replace(old, new)] for one-character [old] and [new]. *)
Definition replace_char (old new : N) (s : pystr) : pystr :=
  map (fun c => if c =? old then new else c) s.

(** The code points for which [str.isspace] holds; [str.strip()] removes them. *)
Definition is_space (c : N) : bool :=
  ((9 <=? c) && (c <=? 13)) || ((28 <=? c) && (c <=? 32))
  || (c =? 133) || (c =? 160) || (c =? 5760)
  || ((8192 <=? c) && (c <=? 8202))
  || (c =? 8232) || (c =? 8233) || (c =? 8239) || (c =? 8287) || (c =? 12288).

Fixpoint lstrip (s : pystr) : pystr :=
  match s with
  | c :: s' => if is_space c then lstrip s' else s
  | [] => []
  end.

Definition strip (s : pystr) : pystr := rev (lstrip (rev (lstrip s))).

(** [os.path.basename]: what follows the last [/]. *)
Definition basename (p : pystr) : pystr :=
  fold_left (fun acc c => if c =? 47 then [] else acc ++ [c]) p [].

(** Index of the last occurrence of [c], as [str.rfind]. *)
Fixpoint rfind (c : N) (s : pystr) : option nat :=
  match s with
  | [] => None
  | x :: s' =>
      match rfind c s' with
      | Some i => Some (S i)
      | None => if x =? c then Some O else None
      end
  end.

(** [os.path.splitext(b)[0]] for a name [b] without separator: the part before
    the last dot, unless only dots precede it. *)
Definition splitext_root (b : pystr) : pystr :=
  match rfind 46 b with
  | None => b
  | Some i => if forallb (N.eqb 46) (take i b) then b else take i b
  end.

(** A regular expression that is a fixed sequence of character classes. *)
Fixpoint match_here (pat : list (N -> bool)) (s : pystr) : option pystr :=
  match pat, s with
  | [], _ => Some []
  | _ :: _, [] => None
  | cls :: pat', c :: s' =>
      if cls c then option_map (cons c) (match_here pat' s') else None
  end.

(** [re.search]: the leftmost match. *)
Fixpoint re_search (pat : list (N -> bool)) (s : pystr) : option pystr :=
  match match_here pat s with
  | Some m => Some m
  | None =>
      match s with
      | [] => None
      | _ :: s' => re_search pat s'
      end
  end.

(** ** Python values *)

Inductive pyfloat :=
| FZero (neg : bool)
| FFinite (neg : bool) (m : positive) (e : Z)
| FInf (neg : bool)
| FNaN.

Inductive pyval :=
| PNone
| PBool (b : bool)
| PInt (z : Z)
| PFloat (f : pyfloat)
| PStr (s : pystr)
| PList (l : list pyval)
| PDict (d : gmap (list N) pyval).

(** Truth value of an object, as [not x] and [x or y] use it. *)
Definition truthy (v : pyval) : bool :=
  match v with
  | PNone => false
  | PBool b => b
  | PInt z => negb (z =? 0)%Z
  | PFloat (FZero _) => false
  | PFloat _ => true
  | PStr s => negb (bool_decide (s = []))
  | PList l => match l with [] => false | _ => true end
  | PDict d => negb (bool_decide (d = ∅))
  end.

(** [o or d] for an optional string [o]: [None] and [''] are both false. *)
Definition or_else (o : option pystr) (d : pystr) : pystr :=
  match o with
  | Some (c :: s) => c :: s
  | _ => d
  end.

(** [len(x)] is defined. *)
Definition has_len (v : pyval) : bool :=
  match v with
  | PStr _ | PList _ | PDict _ => true
  | _ => false
  end.

(** [x[:40]] is defined. *)
Definition sliceable (v : pyval) : bool :=
  match v with
  | PStr _ | PList _ => true
  | _ => false
  end.

(** ** Records of the data model *)

Record voice_reference := { audio : pystr; text : pystr }.

Record segment := {
  title : pyval;
  script : pyval;
  arxiv_id : pystr;
  channel_id : pyval
}.

Record generation_outcome := {
  local_path : pystr;
  out_arxiv_id : pystr;
  out_channel_id : pyval
}.

Record run_report := {
  success : nat;
  failed : nat;
  elapsed_time : pyfloat;
  files : list generation_outcome
}.

(** ** Exceptions, effects and the monad *)

Inductive exn :=
| SystemExit (code : Z)
| ValueError
| AttributeError
| TypeError
| OSError
| APIError.

(** [except Exception] catches everything but [SystemExit]. *)
Definition is_Exception (e : exn) : bool :=
  match e with
  | SystemExit _ => false
  | _ => true
  end.

Inductive event :=
| MsgBanner
| MsgCheckOnly
| WarnNoFemaleReference
| WarnNoMaleReference
| ErrNoReferences
| MsgReferencesLoaded (n : nat)
| WarnNoMappingFile
| MsgMappingLoaded (n : nat)
| ErrMappingFile
| ErrScriptMissing (path : pystr)
| MsgJsonDetected
| MsgMarkdownDetected
| MsgMappedByTitle (t : pyval) (id : pystr)
| MsgMappedByIndex (idx : nat) (id : pystr)
| MsgMappedPaper0 (id : pystr)
| WarnEmptyScript (idx : nat)
| MsgParsed (n : nat)
| ErrReadScript (e : exn)
| MsgAudioStart (n : nat)
| MsgSegmentDetails (idx : nat)
| MsgGenerating (path : pystr)
| ErrGenerate
| MsgSegmentOk (idx : nat) (id : pystr)
| ErrSegmentFailed (idx : nat) (id : pystr)
| MsgStats (ok ko : nat)
| MsgResultSaved (path : pystr).

Inductive written_file :=
| AudioBytes (data : list N)
| ReportJson (r : run_report).

Record world := {
  stdout : list event;
  requests : list (pyval * list voice_reference);
  written : gmap (list N) written_file
}.

Definition world0 : world := {| stdout := []; requests := []; written := ∅ |}.

Inductive result (A : Type) :=
| Ok (a : A)
| Raise (e : exn).
Arguments Ok {A} a.
Arguments Raise {A} e.

Definition M (A : Type) : Type := world -> world * result A.

Definition ret {A} (a : A) : M A := fun w => (w, Ok a).

Definition bind {A B} (m : M A) (f : A -> M B) : M B := fun w =>
  match m w with
  | (w', Ok a) => f a w'
  | (w', Raise e) => (w', Raise e)
  end.

Notation "'let!' x ':=' m 'in' k" := (bind m (fun x => k))
  (at level 10, x name, m at level 100, k at level 200).
Notation "m '>>' k" := (bind m (fun _ => k))
  (at level 62, right associativity).

Definition raise {A} (e : exn) : M A := fun w => (w, Raise e).

Definition print (e : event) : M unit := fun w =>
  ({| stdout := stdout w ++ [e]; requests := requests w; written := written w |}, Ok tt).

Definition when (b : bool) (m : M unit) : M unit := if b then m else ret tt.

(** [try: body  except Exception as e: handler e] *)
Definition try_except {A} (body : M A) (handler : exn -> M A) : M A := fun w =>
  match body w with
  | (w', Raise e) => if is_Exception e then handler e w' else (w', Raise e)
  | r => r
  end.

(** The exit status of the interpreter for the outcome of [main]. *)
Definition exit_status {A} (r : result A) : Z :=
  match r with
  | Ok _ => 0
  | Raise (SystemExit c) => c
  | Raise _ => 1
  end.

(** ** The environment of a run *)

Inductive file_state :=
| Absent                      (* the path does not exist *)
| Unreadable                  (* it exists, [open] or [read] raises *)
| Contents (raw : pystr).     (* [f.read()] returns [raw] *)

Inductive mapping_file :=
| MappingAbsent
| MappingBroken               (* reading or decoding it raises *)
| MappingLoaded (m : gmap (list N) (list N)).

Record env := {
  script_files : pystr -> file_state;
  female_base64_txt : file_state;
  male_base64_txt : file_state;
  arxiv_mapping_json : mapping_file;
  (* [int(time.time())] when the fallback identifier is built *)
  unix_time : Z;
  (* the audio returned for the n-th request, [None] when the call raises *)
  tts : nat -> pyval -> list voice_reference -> option (list N);
  (* whether [open(path, 'wb')] and the write succeed *)
  can_write : pystr -> bool;
  (* [end_time - start_time] *)
  elapsed : pyfloat
}.

Record args := {
  arg_script : pystr;
  arg_output_dir : pystr;
  arg_channel_id : option pystr;
  arg_verbose : bool;
  arg_check_only : bool
}.

Definition female_transcript : pystr :=
  lit "周一到周五，每天早晨七点半到九点半的直播片段。言下之意呢，就是废话有点多，大家也别嫌弃，因为这都是直播间最真实的状态了。".

Definition male_transcript : pystr :=
  lit "就现在的影片结尾是这个凯瑟琳和杰西卡一番折腾以后呢，那个网红的摄像机碎了，然后两个人要消失了。然后杰西卡说：这下大家都要消失，你高兴了吧。".

Definition data_uri_prefix : pystr := lit "data:audio/mpeg;base64,".

Definition segment_name (idx : nat) : pystr := lit "segment_" ++ str_of_nat idx.
Definition unknown_name (idx : nat) : pystr := lit "unknown_" ++ str_of_nat idx.
Definition paper_key (idx : nat) : pystr := lit "paper_" ++ str_of_nat idx.

(** [arxiv_id.startswith('unknown_') or arxiv_id.startswith('segment_')] *)
Definition unresolved (a : pystr) : bool :=
  startswith a (lit "unknown_") || startswith a (lit "segment_").

(** [title.replace(' ', '_')[:50]] *)
Definition clean_title (t : pystr) : pystr := take 50 (replace_char 32 95 t).

Section Program.

(** [json.loads]: [None] when it raises [JSONDecodeError]. *)
Variable json_loads : pystr -> option pyval.

(** The code points matched by [\d]. *)
Variable is_decimal : N -> bool.

(** [str(Path(dir) / name)] *)
Variable path_join : pystr -> pystr -> pystr.

Variable E : env.

(** *** load_voice_references *)

Definition load_reference (f : file_state) (transcript : pystr) (missing : event)
    (references : list voice_reference) : M (list voice_reference) :=
  match f with
  | Contents raw =>
      ret (references ++ [ {| audio := data_uri_prefix ++ strip raw; text := transcript |} ])
  | Unreadable => raise OSError
  | Absent => print missing >> ret references
  end.

Definition load_voice_references : M (list voice_reference) :=
  let! references := load_reference (female_base64_txt E) female_transcript WarnNoFemaleReference [] in
  let! references := load_reference (male_base64_txt E) male_transcript WarnNoMaleReference references in
  match references with
  | [] => print ErrNoReferences >> raise (SystemExit 1)
  | _ => ret references
  end.

(** *** load_arxiv_mapping *)

Definition load_arxiv_mapping : M (gmap (list N) (list N)) :=
  match arxiv_mapping_json E with
  | MappingAbsent => print WarnNoMappingFile >> ret ∅
  | MappingBroken => print ErrMappingFile >> ret ∅
  | MappingLoaded m => print (MsgMappingLoaded (size m)) >> ret m
  end.

(** *** parse_podcast_script *)

(** The branch [isinstance(item, dict)] of the loop body. *)
Definition parse_dict_item (idx : nat) (item : gmap (list N) pyval)
    (arxiv_id_override : option pystr) (arxiv_mapping : gmap (list N) (list N)) : M segment :=
  let title := default (PStr (segment_name idx)) (item !! lit "title") in
  let script := default (PStr []) (item !! lit "script") in
  let arxiv_id :=
    default (PStr (or_else arxiv_id_override (unknown_name idx))) (item !! lit "arxiv_id") in
  let channel_id := default (PStr []) (item !! lit "channel_id") in
  let! arxiv_id :=
    match arxiv_id with
    | PStr a =>
        if unresolved a then
          match title with
          | PStr t =>
              match arxiv_mapping !! clean_title t with
              | Some v => print (MsgMappedByTitle title v) >> ret v
              | None =>
                  match arxiv_mapping !! paper_key idx with
                  | Some v => print (MsgMappedByIndex idx v) >> ret v
                  | None => ret a
                  end
              end
          | _ => raise AttributeError   (* no [replace] on this object *)
          end
        else ret a
    | _ => raise AttributeError         (* no [startswith] on this object *)
    end in
  when (negb (truthy script)) (print (WarnEmptyScript idx)) >>
  ret {| title := title; script := script; arxiv_id := arxiv_id; channel_id := channel_id |}.

(** The branch [isinstance(item, str)]. *)
Definition parse_str_item (idx : nat) (item : pystr)
    (arxiv_id_override : option pystr) (arxiv_mapping : gmap (list N) (list N)) : M segment :=
  let arxiv_id := or_else arxiv_id_override (unknown_name idx) in
  let! arxiv_id :=
    match arxiv_mapping !! paper_key idx with
    | Some v => print (MsgMappedByIndex idx v) >> ret v
    | None => ret arxiv_id
    end in
  ret {| title := PStr (segment_name idx); script := PStr item;
          arxiv_id := arxiv_id; channel_id := PStr [] |}.

Definition parse_item (idx : nat) (item : pyval)
    (arxiv_id_override : option pystr) (arxiv_mapping : gmap (list N) (list N)) : M segment :=
  match item with
  | PDict d => parse_dict_item idx d arxiv_id_override arxiv_mapping
  | PStr s => parse_str_item idx s arxiv_id_override arxiv_mapping
  | _ => raise ValueError
  end.

(** [for idx, item in enumerate(segments)], from index [idx] on. *)
Fixpoint parse_items (idx : nat) (items : list pyval)
    (arxiv_id_override : option pystr) (arxiv_mapping : gmap (list N) (list N))
    (parsed_segments : list segment) : M (list segment) :=
  match items with
  | [] => ret parsed_segments
  | item :: rest =>
      let! seg := parse_item idx item arxiv_id_override arxiv_mapping in
      parse_items (S idx) rest arxiv_id_override arxiv_mapping (parsed_segments ++ [seg])
  end.

(** The first [try]: the decoded array, or [None] for the Markdown path. *)
Definition detect_json (content : pystr) : option (list pyval) :=
  match json_loads content with
  | Some (PList segments) => Some segments
  | _ => None
  end.

Definition dash (c : N) : bool := c =? 45.
Definition dash_or_space (c : N) : bool := (c =? 45) || (c =? 32).

(** [\d{4}-\d{2}-\d{2}[- ]\d{2}-\d{2}-\d{2}] *)
Definition timestamp_pattern : list (N -> bool) :=
  let d := is_decimal in
  [d; d; d; d; dash; d; d; dash; d; d; dash_or_space; d; d; dash; d; d; dash; d; d].

(** The identifier of the single Markdown segment. *)
Definition markdown_arxiv_id (script_path : pystr) (arxiv_id_override : option pystr)
    (arxiv_mapping : gmap (list N) (list N)) : M pystr :=
  match arxiv_id_override with
  | Some (c :: s) => ret (c :: s)
  | _ =>
      let filename := basename script_path in
      match arxiv_mapping !! lit "paper_0" with
      | Some v => print (MsgMappedPaper0 v) >> ret v
      | None =>
          match re_search timestamp_pattern filename with
          | Some ts => ret (replace_char 32 45 ts)
          | None => ret (lit "podcast_" ++ str_of_Z (unix_time E))
          end
      end
  end.

Definition read_script (script_path : pystr) : M pystr :=
  match script_files E script_path with
  | Contents raw => ret (strip raw)
  | _ => raise OSError
  end.

Definition parse_podcast_script (script_path : pystr) (arxiv_id_override : option pystr)
    (arxiv_mapping : gmap (list N) (list N)) : M (list segment) :=
  match script_files E script_path with
  | Absent => print (ErrScriptMissing script_path) >> raise (SystemExit 1)
  | _ =>
      try_except
        (let! content := read_script script_path in
         let! parsed_segments :=
           match detect_json content with
           | Some segments =>
               print MsgJsonDetected >>
               parse_items 0 segments arxiv_id_override arxiv_mapping []
           | None =>
               print MsgMarkdownDetected >>
               let! arxiv_id := markdown_arxiv_id script_path arxiv_id_override arxiv_mapping in
               ret [ {| title := PStr (splitext_root (basename script_path));
                         script := PStr content;
                         arxiv_id := arxiv_id;
                         channel_id := PStr [] |} ]
           end in
         print (MsgParsed (length parsed_segments)) >>
         ret parsed_segments)
        (fun e => print (ErrReadScript e) >> raise (SystemExit 1))
  end.

(** *** generate_audio *)

(** [client.audio.speech.with_streaming_response.create(...)] and
    [response.read()]: one request to the service. *)
Definition request_speech (text : pyval) (references : list voice_reference) : M (list N) :=
  fun w =>
    let w' := {| stdout := stdout w;
                 requests := requests w ++ [(text, references)];
                 written := written w |} in
    match tts E (length (requests w)) text references with
    | Some data => (w', Ok data)
    | None => (w', Raise APIError)
    end.

(** [with open(output_path, 'wb') as f: f.write(data)] *)
Definition write_audio (output_path : pystr) (data : list N) : M unit := fun w =>
  if can_write E output_path then
    ({| stdout := stdout w; requests := requests w;
        written := <[output_path := AudioBytes data]> (written w) |}, Ok tt)
  else (w, Raise OSError).

Definition generate_audio (text : pyval) (references : list voice_reference)
    (output_path : pystr) (verbose : bool) : M bool :=
  try_except
    (when verbose (print (MsgGenerating output_path)) >>
     let! data := request_speech text references in
     write_audio output_path data >>
     ret true)
    (fun e => print ErrGenerate >> ret false).

(** *** main *)

Definition opt_str (o : option pystr) : pyval :=
  match o with
  | Some s => PStr s
  | None => PNone
  end.

(** [channel_id or args.channel_id] *)
Definition outcome_channel (a : args) (channel_id : pyval) : pyval :=
  if truthy channel_id then channel_id else opt_str (arg_channel_id a).

Definition output_path_of (a : args) (s : segment) : pystr :=
  path_join (arg_output_dir a) (arxiv_id s ++ lit ".mp3").

Definition outcome_of (a : args) (s : segment) : generation_outcome :=
  {| local_path := output_path_of a s;
     out_arxiv_id := arxiv_id s;
     out_channel_id := outcome_channel a (channel_id s) |}.

(** The loop variables [success_count], [failed_count], [generated_files]. *)
Record tally := {
  success_count : nat;
  failed_count : nat;
  generated_files : list generation_outcome
}.

(** The lines printed under [args.verbose]; the last one shows [len(script)]. *)
Definition print_details (idx : nat) (segment_info : segment) : M unit :=
  print (MsgSegmentDetails idx) >>
  if has_len (script segment_info) then ret tt else raise TypeError.

(** One iteration of the loop over the segments. *)
Definition process_segment (a : args) (references : list voice_reference)
    (idx : nat) (segment_info : segment) (t : tally) : M tally :=
  let output_path := output_path_of a segment_info in
  when (arg_verbose a) (print_details idx segment_info) >>
  let! ok := generate_audio (script segment_info) references output_path (arg_verbose a) in
  if ok then
    (* [title[:40]] and [len(title)] in the progress line *)
    if sliceable (title segment_info) then
      print (MsgSegmentOk idx (arxiv_id segment_info)) >>
      ret {| success_count := S (success_count t);
              failed_count := failed_count t;
              generated_files := generated_files t ++ [outcome_of a segment_info] |}
    else raise TypeError
  else
    print (ErrSegmentFailed idx (arxiv_id segment_info)) >>
    ret {| success_count := success_count t;
            failed_count := S (failed_count t);
            generated_files := generated_files t |}.

Fixpoint synthesize (a : args) (references : list voice_reference)
    (idx : nat) (segments : list segment) (t : tally) : M tally :=
  match segments with
  | [] => ret t
  | segment_info :: rest =>
      let! t' := process_segment a references idx segment_info t in
      synthesize a references (S idx) rest t'
  end.

Definition result_file (a : args) : pystr :=
  path_join (arg_output_dir a) (lit "audio_generation_result.json").

(** [json.dump(result_json, f, ...)] into [result_file]. *)
Definition write_report (path : pystr) (r : run_report) : M unit := fun w =>
  ({| stdout := stdout w; requests := requests w;
      written := <[path := ReportJson r]> (written w) |}, Ok tt).

Definition main (a : args) : M unit :=
  print MsgBanner >>
  if arg_check_only a then print MsgCheckOnly
  else
    let! references := load_voice_references in
    print (MsgReferencesLoaded (length references)) >>
    let! arxiv_mapping := load_arxiv_mapping in
    let! segments := parse_podcast_script (arg_script a) None arxiv_mapping in
    print (MsgAudioStart (length segments)) >>
    let! t := synthesize a references 0 segments
          {| success_count := 0; failed_count := 0; generated_files := [] |} in
    print (MsgStats (success_count t) (failed_count t)) >>
    write_report (result_file a)
      {| success := success_count t; failed := failed_count t;
         elapsed_time := elapsed E; files := generated_files t |} >>
    print (MsgResultSaved (result_file a)) >>
    if (0 <? failed_count t)%nat then raise (SystemExit 1) else ret tt.

(** [main] in two parts, for the proofs: what runs before the loop, and the
    loop with the report ([main_startup_batch] below). *)
Definition startup (a : args) : M (list voice_reference * list segment) :=
  let! references := load_voice_references in
  print (MsgReferencesLoaded (length references)) >>
  let! arxiv_mapping := load_arxiv_mapping in
  let! segments := parse_podcast_script (arg_script a) None arxiv_mapping in
  ret (references, segments).

Definition batch (a : args) (references : list voice_reference)
    (segments : list segment) : M unit :=
  print (MsgAudioStart (length segments)) >>
  let! t := synthesize a references 0 segments
        {| success_count := 0; failed_count := 0; generated_files := [] |} in
  print (MsgStats (success_count t) (failed_count t)) >>
  write_report (result_file a)
    {| success := success_count t; failed := failed_count t;
       elapsed_time := elapsed E; files := generated_files t |} >>
  print (MsgResultSaved (result_file a)) >>
  if (0 <? failed_count t)%nat then raise (SystemExit 1) else ret tt.

(** Whether the request numbered [n] for [text] yields a file at [output_path]. *)
Definition synthesis_ok (n : nat) (text : pyval) (references : list voice_reference)
    (output_path : pystr) : bool :=
  match tts E n text references with
  | Some _ => can_write E output_path
  | None => false
  end.

(** The segments of [segments] whose synthesis succeeds, when the first of
    them is sent as request number [n]. *)
Fixpoint successful (a : args) (references : list voice_reference) (n : nat)
    (segments : list segment) : list segment :=
  match segments with
  | [] => []
  | s :: rest =>
      if synthesis_ok n (script s) references (output_path_of a s)
      then s :: successful a references (S n) rest
      else successful a references (S n) rest
  end.

End Program.

(** ** The module-level code: [.env] and the API key

    It runs when the module is loaded, before [main]; what it prints is kept
    apart from the output of [main].  The imports are taken to succeed. *)

Inductive init_event :=
| WarnNoEnvFile
| ErrNoApiKey.

(** [for line in f]: the pieces of the text, each with its newline; [cur] is
    the piece being read. *)
Fixpoint file_lines (cur : pystr) (s : pystr) : list pystr :=
  match s with
  | [] => match cur with [] => [] | _ => [cur] end
  | c :: s' =>
      if c =? 10 then (cur ++ [c]) :: file_lines [] s'
      else file_lines (cur ++ [c]) s'
  end.

(** [s.strip(c)] for a single character [c]. *)
Fixpoint lstrip_char (c : N) (s : pystr) : pystr :=
  match s with
  | x :: s' => if x =? c then lstrip_char c s' else s
  | [] => []
  end.

Definition strip_char (c : N) (s : pystr) : pystr :=
  rev (lstrip_char c (rev (lstrip_char c s))).

(** [s.split(c, 1)] when [c in s]: what precedes and what follows the first
    [c]; [None] when [c] does not occur. *)
Fixpoint split_first (c : N) (s : pystr) : option (pystr * pystr) :=
  match s with
  | [] => None
  | x :: s' =>
      if x =? c then Some ([], s')
      else match split_first c s' with
           | Some (k, v) => Some (x :: k, v)
           | None => None
           end
  end.

(** The body of the loop of [load_env_file]: the variable a line sets. *)
Definition env_assignment (line : pystr) : option (pystr * pystr) :=
  let line := strip line in
  if bool_decide (line = []) || startswith line (lit "#") then None
  else
    match split_first 61 line with
    | Some (key, value) =>
        Some (strip key, strip_char 39 (strip_char 34 (strip value)))
    | None => None
    end.

(** What [os.environ[key] = value] does: it sets the variable, or it raises
    [ValueError] (an empty name, a null character, a character the encoding
    of the platform lacks) or [OSError] (the C library refuses the name). *)
Inductive putenv_outcome :=
| PutenvOk
| PutenvValueError
| PutenvOSError.

Record config := { API_KEY : pystr; BASE_URL : pystr }.

Section Startup.

Variable putenv : pystr -> pystr -> putenv_outcome.

(** Whether [OpenAI(api_key=API_KEY, base_url=BASE_URL)] returns a client; it
    raises otherwise. *)
Variable client_ok : config -> bool.

Fixpoint load_env_lines (lines : list pystr) (environ : gmap (list N) (list N))
    : result (gmap (list N) (list N)) :=
  match lines with
  | [] => Ok environ
  | line :: rest =>
      match env_assignment line with
      | Some (key, value) =>
          match putenv key value with
          | PutenvOk => load_env_lines rest (<[key := value]> environ)
          | PutenvValueError => Raise ValueError
          | PutenvOSError => Raise OSError
          end
      | None => load_env_lines rest environ
      end
  end.

(** [load_env_file(env_path)], on the state [f] of that path and the
    variables of the process. *)
Definition load_env_file (f : file_state) (environ : gmap (list N) (list N))
    : list init_event * result (gmap (list N) (list N)) :=
  match f with
  | Absent => ([WarnNoEnvFile], Ok environ)
  | Unreadable => ([], Raise OSError)
  | Contents raw => ([], load_env_lines (file_lines [] raw) environ)
  end.

(** The statements of the module up to the check of [API_KEY]. *)
Definition module_init (dotenv : file_state) (environ : gmap (list N) (list N))
    : list init_event * result config :=
  match load_env_file dotenv environ with
  | (out, Ok environ') =>
      let api_key := default [] (environ' !! lit "SILICONFLOW_API_KEY") in
      let base_url :=
        default (lit "https://api.siliconflow.cn/v1")
          (environ' !! lit "SILICONFLOW_BASE_URL") in
      match api_key with
      | [] => (out ++ [ErrNoApiKey], Raise (SystemExit 1))
      | _ => (out, Ok {| API_KEY := api_key; BASE_URL := base_url |})
      end
  | (out, Raise e) => (out, Raise e)
  end.

(** [python produce_podcast.py ...]: the module-level code, then [main] on
    the console and the file system as they are at the start. *)
Definition program (json_loads : pystr -> option pyval) (is_decimal : N -> bool)
    (path_join : pystr -> pystr -> pystr) (E : env)
    (dotenv : file_state) (environ : gmap (list N) (list N)) (a : args)
    : list init_event * (world * result unit) :=
  match module_init dotenv environ with
  | (out, Ok cfg) =>
      if client_ok cfg then (out, main json_loads is_decimal path_join E a world0)
      else (out, (world0, Raise APIError))
  | (out, Raise e) => (out, (world0, Raise e))
  end.

End Startup.

(** ** Predicates used in the statements *)

(** An array element that is neither an object nor a string. *)
Definition unsupported (v : pyval) : bool :=
  match v with
  | PDict _ | PStr _ => false
  | _ => true
  end.

(** [seg] is what the loop body appends for [item] at index [idx]. *)
Definition item_segment (idx : nat) (item : pyval) (o : option pystr)
    (m : gmap (list N) (list N)) (seg : segment) : Prop :=
  exists w1 w2, parse_item idx item o m w1 = (w2, Ok seg).


(** The value under a key is a string, or the key is absent. *)
Definition str_or_absent (o : option pyval) : bool :=
  match o with
  | Some (PStr _) | None => true
  | Some _ => false
  end.

(** An object whose [title] and [arxiv_id], where present, are strings. *)
Definition typed_object (d : gmap (list N) pyval) : bool :=
  str_or_absent (d !! lit "title") && str_or_absent (d !! lit "arxiv_id").

(** The field [key] of an object, or [dflt] when the key is absent. *)
Definition field (d : gmap (list N) pyval) (key : string) (dflt : pystr) : pyval :=
  default (PStr dflt) (d !! lit key).

(** [ts] has the shape of the character classes [pat]. *)
Definition has_shape (pat : list (N -> bool)) (ts : pystr) : Prop :=
  Forall2 (fun cls c => cls c = true) pat ts.

(** [l] is [n] characters of the class [d]. *)
Definition digits (d : N -> bool) (n : nat) (l : pystr) : Prop :=
  length l = n /\ Forall (fun c => d c = true) l.

(** [YYYY-MM-DD HH-MM-SS], the date and the time joined by a space or a dash. *)
Definition is_timestamp (d : N -> bool) (ts : pystr) : Prop :=
  exists y mo da sep h mi se,
    ts = y ++ 45 :: mo ++ 45 :: da ++ sep :: h ++ 45 :: mi ++ 45 :: se
    /\ digits d 4 y /\ digits d 2 mo /\ digits d 2 da
    /\ (sep = 45 \/ sep = 32)
    /\ digits d 2 h /\ digits d 2 mi /\ digits d 2 se.

(** [\\d] on ASCII: the digits [0] to [9]. *)
Definition ascii_digit (c : N) : bool := (48 <=? c) && (c <=? 57).

(** No report has been written. *)
Definition no_report (w : world) : Prop :=
  forall p r, written w !! p <> Some (ReportJson r).

(** The loop variables after one more success, one more failure. *)
Definition count_success (o : generation_outcome) (t : tally) : tally :=
  {| success_count := S (success_count t);
     failed_count := failed_count t;
     generated_files := generated_files t ++ [o] |}.

Definition count_failure (t : tally) : tally :=
  {| success_count := success_count t;
     failed_count := S (failed_count t);
     generated_files := generated_files t |}.

Definition tally0 : tally :=
  {| success_count := 0; failed_count := 0; generated_files := [] |}.

Definition report_of (E : env) (t : tally) : run_report :=
  {| success := success_count t; failed := failed_count t;
     elapsed_time := elapsed E; files := generated_files t |}.

(** The reference obtained from one sample file. *)
Definition loaded_reference (f : file_state) (transcript : pystr) : list voice_reference :=
  match f with
  | Contents raw => [ {| audio := data_uri_prefix ++ strip raw; text := transcript |} ]
  | _ => []
  end.

(** *** The reference loader as the specification words it

    The sample is read as raw bytes and encoded by the loader. *)

Definition b64_char (n : N) : N :=
  if n <? 26 then 65 + n
  else if n <? 52 then 97 + (n - 26)
  else if n <? 62 then 48 + (n - 52)
  else if n =? 62 then 43 else 47.

Fixpoint base64_encode (bs : list N) : pystr :=
  match bs with
  | [] => []
  | [a] => [b64_char (a / 4); b64_char (a mod 4 * 16); 61; 61]
  | [a; b] =>
      [b64_char (a / 4); b64_char (a mod 4 * 16 + b / 16); b64_char (b mod 16 * 4); 61]
  | a :: b :: c :: rest =>
      b64_char (a / 4) :: b64_char (a mod 4 * 16 + b / 16)
      :: b64_char (b mod 16 * 4 + c / 64) :: b64_char (c mod 64)
      :: base64_encode rest
  end.

Definition spec_audio_field (raw_bytes : list N) : pystr :=
  data_uri_prefix ++ base64_encode raw_bytes.

(** *** The [.env] file *)

(** The variables a file sets, in the order of its lines. *)
Definition assignments (raw : pystr) : list (pystr * pystr) :=
  omap env_assignment (file_lines [] raw).

(** The value of the variable [name] once the file is loaded: the one given
    by the last line of the file that sets it, else the one of the process. *)
Definition setting (raw : pystr) (environ : gmap (list N) (list N)) (name : pystr)
    : option pystr :=
  match last (filter (fun kv => kv.1 = name) (assignments raw)) with
  | Some kv => Some kv.2
  | None => environ !! name
  end.

(** The variables after the assignments [l], made in this order. *)
Definition assign (environ : gmap (list N) (list N)) (l : list (pystr * pystr))
    : gmap (list N) (list N) :=
  foldl (fun m kv => <[kv.1 := kv.2]> m) environ l.

(** What is left of [s] after its leading characters that satisfy [p]. *)
Fixpoint drop_while (p : N -> bool) (s : pystr) : pystr :=
  match s with
  | c :: s' => if p c then drop_while p s' else s
  | [] => []
  end.

(** Every assignment of the file is accepted by the platform. *)
Definition accepted (putenv : pystr -> pystr -> putenv_outcome) (raw : pystr) : Prop :=
  Forall (fun kv => putenv kv.1 kv.2 = PutenvOk) (assignments raw).

(** Only white space. *)
Definition blank (s : pystr) : bool := forallb is_space s.

(** Neither the first nor the last character of [s] satisfies [p]. *)
Definition ends_free (p : N -> bool) (s : pystr) : bool :=
  match head s with Some c => negb (p c) | None => true end
  && match last s with Some c => negb (p c) | None => true end.

Definition is_quote (c : N) : bool := (c =? 34) || (c =? 39).

(** *** Runs that differ by an option or by a file *)

Definition with_verbose (v : bool) (a : args) : args :=
  {| arg_script := arg_script a;
     arg_output_dir := arg_output_dir a;
     arg_channel_id := arg_channel_id a;
     arg_verbose := v;
     arg_check_only := arg_check_only a |}.

Definition with_mapping (f : mapping_file) (E : env) : env :=
  {| script_files := script_files E;
     female_base64_txt := female_base64_txt E;
     male_base64_txt := male_base64_txt E;
     arxiv_mapping_json := f;
     unix_time := unix_time E;
     tts := tts E;
     can_write := can_write E;
     elapsed := elapsed E |}.

(** The dictionary [load_arxiv_mapping] returns for a file in state [f]. *)
Definition mapping_of (f : mapping_file) : gmap (list N) (list N) :=
  match f with
  | MappingLoaded m => m
  | _ => ∅
  end.

(** An array element the loop accepts: a string, or an object whose [title]
    and [arxiv_id], where present, are strings. *)
Definition supported (item : pyval) : bool :=
  match item with
  | PStr _ => true
  | PDict d => typed_object d
  | _ => false
  end.

(** Two states of the world that differ at most by what was printed. *)
Definition same_effects (w1 w2 : world) : Prop :=
  requests w1 = requests w2 /\ written w1 = written w2.

(** Two computations that, from such states, end alike and in such states. *)
Definition alike {A} (m1 m2 : M A) : Prop :=
  forall w1 w2, same_effects w1 w2 ->
    (m1 w1).2 = (m2 w2).2 /\ same_effects (m1 w1).1 (m2 w2).1.

(** ** Concrete instances for examples *)

Module Sample.

(** [str(Path(dir) / name)] for a relative or absolute [name]. *)
Definition join (dir name : pystr) : pystr :=
  if startswith name [47] then name else dir ++ 47 :: name.

(** A JSON text written with ['] in place of the double quote. *)
Definition json_text (s : string) : pystr := replace_char 39 34 (lit s).

(** [json.loads] on the texts of [table]; every other text is taken to be
    rejected. *)
Definition loads_of (table : list (pystr * pyval)) (content : pystr) : option pyval :=
  snd <$> List.find (fun p => bool_decide (p.1 = content)) table.

Definition obj (fields : list (pystr * pyval)) : pyval := PDict (list_to_map fields).

Definition no_file : pystr -> file_state := fun _ => Absent.

Definition one_file (path content : pystr) : pystr -> file_state :=
  fun p => if bool_decide (p = path) then Contents content else Absent.

(** A service that answers every request, one that rejects an empty text,
    and one that is down. *)
Definition answers : nat -> pyval -> list voice_reference -> option (list N) :=
  fun _ _ _ => Some [73; 68; 51].

Definition answers_nonempty : nat -> pyval -> list voice_reference -> option (list N) :=
  fun _ text _ => if truthy text then Some [73; 68; 51] else None.


(** An environment with both voice samples, no mapping file and a writable
    output directory. *)
Definition env_of (script_files : pystr -> file_state)
    (tts : nat -> pyval -> list voice_reference -> option (list N)) : env :=
  {| script_files := script_files;
     female_base64_txt := Contents (lit "QUJD");
     male_base64_txt := Contents (lit "REVG");
     arxiv_mapping_json := MappingAbsent;
     unix_time := 1759674600;
     tts := tts;
     can_write := fun _ => true;
     elapsed := FFinite false 3 (-1) |}.

(** The same without any voice sample. *)
Definition env_without_samples : env :=
  {| script_files := no_file;
     female_base64_txt := Absent;
     male_base64_txt := Absent;
     arxiv_mapping_json := MappingAbsent;
     unix_time := 1759674600;
     tts := answers;
     can_write := fun _ => true;
     elapsed := FFinite false 3 (-1) |}.

Definition args_of (script : pystr) : args :=
  {| arg_script := script;
     arg_output_dir := lit "out";
     arg_channel_id := None;
     arg_verbose := false;
     arg_check_only := false |}.

Definition script_json : pystr := lit "in/podcast.json".
Definition script_md : pystr := lit "in/notes_2025-10-05 14-30-00.md".

Definition text_objects : pystr :=
  json_text "[{'title': 'A B', 'script': '[S1]hi'}, {'title': 'B', 'script': ''}]".
Definition objects : list (gmap (list N) pyval) :=
  [ list_to_map [(lit "title", PStr (lit "A B")); (lit "script", PStr (lit "[S1]hi"))];
    list_to_map [(lit "title", PStr (lit "B")); (lit "script", PStr [])] ].

Definition text_strings : pystr := json_text "['[S1]a', '[S2]b']".
Definition strings : list pystr := [lit "[S1]a"; lit "[S2]b"].

Definition text_number : pystr := json_text "['hi', 7]".
Definition text_null : pystr := json_text "[{'script': null}]".
Definition text_numeric_title : pystr := json_text "[{'title': 5}]".
Definition text_empty_id : pystr := json_text "[{'arxiv_id': ''}]".
Definition text_numbered : pystr :=
  json_text "[{'title': 5, 'script': '[S1]hi', 'arxiv_id': '2401.00001'}]".
Definition text_empty_array : pystr := lit "[]".
Definition text_dialogue : pystr := lit "[S1]hello[S2]hi".

(** What [json.loads] returns on the JSON texts above; the other texts used
    below (the dialogue and the empty string) are not JSON. *)
Definition loads : pystr -> option pyval :=
  loads_of
    [ (text_objects, PList (PDict <$> objects));
      (text_strings, PList (PStr <$> strings));
      (text_number, PList [PStr (lit "hi"); PInt 7]);
      (text_null, PList [obj [(lit "script", PNone)]]);
      (text_numeric_title, PList [obj [(lit "title", PInt 5)]]);
      (text_empty_id, PList [obj [(lit "arxiv_id", PStr [])]]);
      (text_numbered,
       PList [obj [(lit "title", PInt 5); (lit "script", PStr (lit "[S1]hi"));
                   (lit "arxiv_id", PStr (lit "2401.00001"))]]);
      (text_empty_array, PList []) ].

(** A mapping with an entry for a title and one for a position. *)
Definition mapping : gmap (list N) (list N) :=
  <[lit "A_B" := lit "2401.00001"]> (<[lit "paper_1" := lit "2310.12345"]> ∅).

(** The segments of [text_objects]: without mapping, and with [mapping]. *)
Definition segments_plain : list segment :=
  [ {| title := PStr (lit "A B"); script := PStr (lit "[S1]hi");
       arxiv_id := lit "unknown_0"; channel_id := PStr [] |};
    {| title := PStr (lit "B"); script := PStr [];
       arxiv_id := lit "unknown_1"; channel_id := PStr [] |} ].


(** The runs on [text_objects]: the service rejects the empty script of the
    second segment; the service answers everything; the service is down. *)
Definition env_mixed : env := env_of (one_file script_json text_objects) answers_nonempty.
Definition env_fine : env := env_of (one_file script_json text_objects) answers.


Definition report_mixed : run_report :=
  {| success := 1; failed := 1; elapsed_time := FFinite false 3 (-1);
     files := [ {| local_path := lit "out/unknown_0.mp3";
                   out_arxiv_id := lit "unknown_0";
                   out_channel_id := PNone |} ] |}.

Definition report_fine : run_report :=
  {| success := 2; failed := 0; elapsed_time := FFinite false 3 (-1);
     files := [ {| local_path := lit "out/unknown_0.mp3";
                   out_arxiv_id := lit "unknown_0";
                   out_channel_id := PNone |};
                {| local_path := lit "out/unknown_1.mp3";
                   out_arxiv_id := lit "unknown_1";
                   out_channel_id := PNone |} ] |}.

Definition references : list voice_reference :=
  [ {| audio := lit "data:audio/mpeg;base64,QUJD"; text := female_transcript |};
    {| audio := lit "data:audio/mpeg;base64,REVG"; text := male_transcript |} ].

(** A platform that accepts every variable, and a client that is always
    built. *)
Definition putenv_any : pystr -> pystr -> putenv_outcome := fun _ _ => PutenvOk.
Definition client_any : config -> bool := fun _ => true.

(** A [.env] file: a comment, the key in quotes, an empty line, a line
    without [=], the key again, and a URL that holds [=]. *)
Definition dotenv : pystr :=
  lit "# SiliconFlow" ++ 10 ::
  lit "SILICONFLOW_API_KEY = 'sk-old'" ++ 10 ::
  10 ::
  lit "not an assignment" ++ 10 ::
  lit "SILICONFLOW_API_KEY=sk-new" ++ 10 ::
  lit "SILICONFLOW_BASE_URL=https://example.org/v1?a=b".

(** A [.env] file that sets the key to nothing. *)
Definition dotenv_blank_key : pystr := lit "SILICONFLOW_API_KEY=" ++ [10].

(** The variables of a process that has a key of its own. *)
Definition environ : gmap (list N) (list N) :=
  <[lit "SILICONFLOW_API_KEY" := lit "sk-env"]> (<[lit "HOME" := lit "/root"]> ∅).

(** An array that mixes an object and two strings. *)
Definition text_mixed : pystr := json_text "[{'title': 'A B'}, '[S1]a', '[S2]b']".
Definition loads_mixed : pystr -> option pyval :=
  loads_of
    [ (text_mixed,
       PList [obj [(lit "title", PStr (lit "A B"))]; PStr (lit "[S1]a"); PStr (lit "[S2]b")]) ].

(** A Markdown script in a directory named after a date. *)
Definition script_dated_dir : pystr := lit "2025-10-05 14-30-00/podcast.md".




(** The male sample exists and cannot be read. *)
Definition env_unreadable : env :=
  {| script_files := one_file script_json text_objects;
     female_base64_txt := Contents (lit "QUJD");
     male_base64_txt := Unreadable;
     arxiv_mapping_json := MappingAbsent;
     unix_time := 1759674600;
     tts := answers;
     can_write := fun _ => true;
     elapsed := FFinite false 3 (-1) |}.

(** A platform that refuses the empty name, and a [.env] file with a line
    that has no name. *)
Definition putenv_named : pystr -> pystr -> putenv_outcome :=
  fun key _ => match key with [] => PutenvValueError | _ => PutenvOk end.

Definition dotenv_nameless : pystr :=
  lit "SILICONFLOW_API_KEY=sk-new" ++ 10 :: lit "=oops".

End Sample.

(** ** Reasoning about the monad *)

Lemma bind_Ok {A B} (m : M A) (f : A -> M B) w w' a :
  m w = (w', Ok a) -> bind m f w = f a w'.
Proof. intros H. unfold bind. by rewrite H. Qed.

Lemma bind_Raise {A B} (m : M A) (f : A -> M B) w w' e :
  m w = (w', Raise e) -> bind m f w = (w', Raise e).
Proof. intros H. unfold bind. by rewrite H. Qed.

Lemma bind_inv_Ok {A B} (m : M A) (f : A -> M B) w w' b :
  bind m f w = (w', Ok b) ->
  exists w1 a, m w = (w1, Ok a) /\ f a w1 = (w', Ok b).
Proof.
  unfold bind. destruct (m w) as [w1 [a|e]]; intros H; [eauto | discriminate].
Qed.


(** A computation that only prints: it sends no request and writes no file. *)
Definition quiet {A} (m : M A) : Prop :=
  forall w, requests (m w).1 = requests w /\ written (m w).1 = written w.

Lemma quiet_ret {A} (a : A) : quiet (ret a).
Proof. by intros w. Qed.

Lemma quiet_raise {A} e : quiet (@raise A e).
Proof. by intros w. Qed.

Lemma quiet_print e : quiet (print e).
Proof. by intros w. Qed.

Lemma quiet_bind {A B} (m : M A) (f : A -> M B) :
  quiet m -> (forall a, quiet (f a)) -> quiet (bind m f).
Proof.
  intros Hm Hf w. unfold bind. specialize (Hm w).
  destruct (m w) as [w1 [a|e]]; simpl in *; [| done].
  destruct Hm as [H3 H4]. destruct (Hf a w1) as [H1 H2]. split; congruence.
Qed.

Lemma quiet_when b (m : M unit) : quiet m -> quiet (when b m).
Proof. destruct b; [done | intros _; apply quiet_ret]. Qed.

Lemma quiet_try_except {A} (body : M A) handler :
  quiet body -> (forall e, quiet (handler e)) -> quiet (try_except body handler).
Proof.
  intros Hb Hh w. unfold try_except. specialize (Hb w).
  destruct (body w) as [w1 [a|e]]; simpl in *; [done |].
  destruct (is_Exception e); [| done].
  destruct Hb as [H3 H4]. destruct (Hh e w1) as [H1 H2]. split; congruence.
Qed.

Ltac quiet_tac :=
  repeat first
    [ apply quiet_ret | apply quiet_raise | apply quiet_print
    | apply quiet_when | apply quiet_bind | apply quiet_try_except
    | match goal with |- forall _, _ => intros ? end
    | case_match ].

Section Proofs.

Variable json_loads : pystr -> option pyval.
Variable is_decimal : N -> bool.
Variable path_join : pystr -> pystr -> pystr.
Variable E : env.

Lemma quiet_load_voice_references : quiet (load_voice_references E).
Proof. unfold load_voice_references, load_reference. quiet_tac. Qed.

Lemma quiet_load_arxiv_mapping : quiet (load_arxiv_mapping E).
Proof. unfold load_arxiv_mapping. quiet_tac. Qed.

Lemma quiet_parse_item idx item o m : quiet (parse_item idx item o m).
Proof. unfold parse_item, parse_dict_item, parse_str_item. quiet_tac. Qed.

Lemma quiet_parse_items items : forall idx o m acc, quiet (parse_items idx items o m acc).
Proof.
  induction items as [| item rest IH]; intros idx o m acc; simpl.
  - apply quiet_ret.
  - apply quiet_bind; [apply quiet_parse_item | intros seg; apply IH].
Qed.

Lemma quiet_parse_podcast_script path o m :
  quiet (parse_podcast_script json_loads is_decimal E path o m).
Proof.
  unfold parse_podcast_script, read_script, markdown_arxiv_id.
  destruct (script_files E path); quiet_tac; apply quiet_parse_items.
Qed.

(** *** The two paths of the parser *)




Lemma parse_json path o m raw items w :
  script_files E path = Contents raw ->
  detect_json json_loads (strip raw) = Some items ->
  parse_podcast_script json_loads is_decimal E path o m w
  = match parse_items 0 items o m [] (print MsgJsonDetected w).1 with
    | (w1, Ok segs) => ((print (MsgParsed (length segs)) w1).1, Ok segs)
    | (w1, Raise e) =>
        if is_Exception e then ((print (ErrReadScript e) w1).1, Raise (SystemExit 1))
        else (w1, Raise e)
    end.
Proof.
  intros Hfile Hjson. unfold parse_podcast_script, read_script. rewrite Hfile.
  unfold try_except. rewrite (bind_Ok _ _ w w (strip raw)) by done. rewrite Hjson.
  unfold bind at 1. unfold bind at 1. simpl.
  by destruct (parse_items _ _ _ _ _ _) as [w1 [segs|e]].
Qed.

Lemma markdown_arxiv_id_Ok path o m w :
  exists w1 id, markdown_arxiv_id is_decimal E path o m w = (w1, Ok id).
Proof.
  unfold markdown_arxiv_id, bind, ret, print. repeat case_match; eauto.
Qed.

Lemma parse_markdown path o m raw w :
  script_files E path = Contents raw ->
  detect_json json_loads (strip raw) = None ->
  parse_podcast_script json_loads is_decimal E path o m w
  = match markdown_arxiv_id is_decimal E path o m (print MsgMarkdownDetected w).1 with
    | (w1, Ok id) =>
        ((print (MsgParsed 1) w1).1,
         Ok [ {| title := PStr (splitext_root (basename path));
                 script := PStr (strip raw);
                 arxiv_id := id;
                 channel_id := PStr [] |} ])
    | (w1, Raise e) => (w1, Raise e)
    end.
Proof.
  intros Hfile Hjson. unfold parse_podcast_script, read_script. rewrite Hfile.
  unfold try_except. rewrite (bind_Ok _ _ w w (strip raw)) by done. rewrite Hjson.
  destruct (markdown_arxiv_id_Ok path o m (print MsgMarkdownDetected w).1)
    as (w1 & id & Hid).
  unfold bind, print, ret in *. simpl in *. by rewrite Hid.
Qed.

(** *** Unsupported array elements *)

Lemma parse_item_Exception idx item o m w w' e :
  parse_item idx item o m w = (w', Raise e) -> is_Exception e = true.
Proof.
  unfold parse_item, parse_dict_item, parse_str_item, bind, ret, raise, print, when.
  intros H. repeat case_match; by simplify_eq.
Qed.

Lemma parse_item_unsupported idx item o m w :
  unsupported item = true -> parse_item idx item o m w = (w, Raise ValueError).
Proof. by destruct item. Qed.

Lemma parse_items_inv items : forall idx o m acc w w' segs,
  parse_items idx items o m acc w = (w', Ok segs) ->
  exists new,
    segs = acc ++ new /\ length new = length items
    /\ forall i item seg,
         items !! i = Some item -> new !! i = Some seg ->
         item_segment (idx + i) item o m seg.
Proof.
  induction items as [| item rest IH]; intros idx o m acc w w' segs H; simpl in *.
  - unfold ret in H. simplify_eq. exists []. rewrite app_nil_r.
    split_and!; [done | done |]. intros i item seg Hi. by rewrite lookup_nil in Hi.
  - apply bind_inv_Ok in H as (w1 & seg & Hseg & H).
    apply IH in H as (new & -> & Hlen & Hnew).
    exists (seg :: new). rewrite <- app_assoc. simpl.
    split_and!; [done | by rewrite Hlen |].
    intros [| i] item' seg' Hi Hs; simpl in *; simplify_eq.
    + rewrite Nat.add_0_r. by exists w, w1.
    + replace (idx + S i)%nat with (S idx + i)%nat by lia. by eapply Hnew.
Qed.

Lemma parse_items_total items : forall idx o m acc w,
  (forall i item w1, items !! i = Some item ->
     exists w2 seg, parse_item (idx + i) item o m w1 = (w2, Ok seg)) ->
  exists w' segs, parse_items idx items o m acc w = (w', Ok segs).
Proof.
  induction items as [| item rest IH]; intros idx o m acc w Hall; simpl.
  - by exists w, acc.
  - destruct (Hall 0%nat item w eq_refl) as (w1 & seg & Hseg).
    rewrite Nat.add_0_r in Hseg. rewrite (bind_Ok _ _ _ _ _ Hseg).
    apply IH. intros i item' w2 Hi.
    replace (S idx + i)%nat with (idx + S i)%nat by lia. by apply Hall.
Qed.




Lemma parse_items_unsupported items : forall idx o m acc w bad,
  bad ∈ items -> unsupported bad = true ->
  exists w' e, parse_items idx items o m acc w = (w', Raise e) /\ is_Exception e = true.
Proof.
  induction items as [| item rest IH]; intros idx o m acc w bad Hin Hbad.
  - by apply elem_of_nil in Hin.
  - simpl. destruct (parse_item idx item o m w) as [w1 [seg|e]] eqn:Hitem.
    + rewrite (bind_Ok _ _ _ _ _ Hitem).
      apply elem_of_cons in Hin as [-> | Hin].
      * rewrite parse_item_unsupported in Hitem by done. discriminate.
      * by eapply IH.
    + rewrite (bind_Raise _ _ _ _ _ Hitem). exists w1, e. split; [done |].
      by eapply parse_item_Exception.
Qed.

Lemma parse_unsupported_exits path o m raw items bad w :
  script_files E path = Contents raw ->
  json_loads (strip raw) = Some (PList items) ->
  bad ∈ items -> unsupported bad = true ->
  exists w', parse_podcast_script json_loads is_decimal E path o m w = (w', Raise (SystemExit 1)).
Proof.
  intros Hfile Hjson Hin Hbad.
  unfold parse_podcast_script, read_script, detect_json. rewrite Hfile.
  unfold try_except.
  rewrite (bind_Ok _ _ w w (strip raw)) by done. rewrite Hjson.
  destruct (parse_items_unsupported items 0 o m []
              (print MsgJsonDetected w).1 bad Hin Hbad) as (w1 & e & Hrun & He).
  erewrite bind_Raise; last first.
  { erewrite bind_Ok by reflexivity. simpl. exact Hrun. }
  rewrite He. unfold bind, print, raise. simpl. eauto.
Qed.

(** *** The steps before the loop *)

Lemma main_startup_batch a w :
  main json_loads is_decimal path_join E a w =
  (print MsgBanner >>
   if arg_check_only a then print MsgCheckOnly
   else let! p := startup json_loads is_decimal E a in
        batch path_join E a p.1 p.2) w.
Proof.
  unfold main, startup, batch, bind, ret. simpl.
  destruct (arg_check_only a); [done |].
  destruct (load_voice_references E _) as [w1 [refs|e]]; [| done]. simpl.
  destruct (load_arxiv_mapping E _) as [w2 [m|e]]; [| done].
  by destruct (parse_podcast_script _ _ _ _ _ _ _) as [w3 [segs|e]].
Qed.

Lemma quiet_startup a : quiet (startup json_loads is_decimal E a).
Proof.
  unfold startup.
  apply quiet_bind; [apply quiet_load_voice_references | intros refs].
  apply quiet_bind; [apply quiet_print | intros _].
  apply quiet_bind; [apply quiet_load_arxiv_mapping | intros m].
  apply quiet_bind; [apply quiet_parse_podcast_script | intros segs].
  apply quiet_ret.
Qed.

Lemma load_voice_references_Raise w w' e :
  load_voice_references E w = (w', Raise e) -> e = SystemExit 1 \/ e = OSError.
Proof.
  unfold load_voice_references, load_reference, bind, ret, raise, print.
  intros H. repeat case_match; simplify_eq; auto.
Qed.

Lemma load_arxiv_mapping_Ok w :
  exists w' m, load_arxiv_mapping E w = (w', Ok m).
Proof.
  unfold load_arxiv_mapping, bind, ret, print. case_match; eauto.
Qed.

(** When the parser exits, so does the run: status 1, no request sent and no
    file written. *)
Lemma main_parse_exits a w :
  arg_check_only a = false ->
  (forall m w0, exists w1,
      parse_podcast_script json_loads is_decimal E (arg_script a) None m w0
      = (w1, Raise (SystemExit 1))) ->
  exit_status (main json_loads is_decimal path_join E a w).2 = 1%Z
  /\ requests (main json_loads is_decimal path_join E a w).1 = requests w
  /\ written (main json_loads is_decimal path_join E a w).1 = written w.
Proof.
  intros Hco Hparse.
  set (w0 := {| stdout := stdout w ++ [MsgBanner]; requests := requests w;
                written := written w |}).
  pose proof (quiet_startup a w0) as [Hq1 Hq2].
  assert (exists w1 e, startup json_loads is_decimal E a w0 = (w1, Raise e)
                       /\ exit_status (@Raise unit e) = 1%Z) as (w1 & e & Hs & He).
  { unfold startup.
    destruct (load_voice_references E w0) as [wa [refs|e]] eqn:Hrefs.
    - erewrite bind_Ok by exact Hrefs.
      unfold bind at 1. simpl.
      destruct (load_arxiv_mapping_Ok
                  {| stdout := stdout wa ++ [MsgReferencesLoaded (length refs)];
                     requests := requests wa; written := written wa |})
        as (wb & m & Hm).
      erewrite bind_Ok by exact Hm.
      destruct (Hparse m wb) as [wc Hp].
      erewrite bind_Raise by exact Hp. eauto.
    - erewrite bind_Raise by exact Hrefs.
      exists wa, e. split; [done |].
      by destruct (load_voice_references_Raise _ _ _ Hrefs) as [-> | ->]. }
  assert (main json_loads is_decimal path_join E a w = (w1, Raise e)) as ->.
  { rewrite main_startup_batch, Hco. unfold bind at 1. simpl.
    by erewrite bind_Raise by exact Hs. }
  rewrite Hs in Hq1, Hq2. subst w0. simpl in *. done.
Qed.

(** C6: a JSON array holding an element that is neither an object nor a
    string (a number, [null], a boolean, a nested array) makes
    [parse_podcast_script] leave through [sys.exit(1)]: no segment list is
    returned, whatever the other elements are.  The run then ends with exit
    status 1, without any request to the service and without any file
    written. *)
Theorem unsupported_element_aborts a raw items o m w :
  script_files E (arg_script a) = Contents raw ->
  json_loads (strip raw) = Some (PList items) ->
  existsb unsupported items = true ->
  (exists w', parse_podcast_script json_loads is_decimal E (arg_script a) o m w
              = (w', Raise (SystemExit 1)))
  /\ (arg_check_only a = false ->
      exit_status (main json_loads is_decimal path_join E a w).2 = 1%Z
      /\ requests (main json_loads is_decimal path_join E a w).1 = requests w
      /\ written (main json_loads is_decimal path_join E a w).1 = written w).
Proof.
  intros Hfile Hjson Hbad.
  apply existsb_exists in Hbad as (bad & Hin & Hbad).
  apply list_elem_of_In in Hin.
  split.
  - by eapply parse_unsupported_exits.
  - intros Hco. apply main_parse_exits; [done |].
    intros m0 w0. by eapply parse_unsupported_exits.
Qed.

(** *** The script file *)


(** *** The file-name pattern *)

Lemma match_here_spec pat : forall s ts,
  match_here pat s = Some ts <-> has_shape pat ts /\ exists post, s = ts ++ post.
Proof.
  unfold has_shape.
  induction pat as [| cls pat IH]; intros s ts; simpl.
  - split.
    + intros [= <-]. split; [constructor | by exists s].
    + intros [Hsh _]. by inversion Hsh.
  - destruct s as [| c s].
    + split; [done |]. intros [Hsh [post Hs]].
      apply Forall2_cons_inv_l in Hsh as (c0 & l' & Hc0 & Hl' & ->). discriminate.
    + destruct (cls c) eqn:Hc.
      * destruct (match_here pat s) as [ts' |] eqn:Hm; simpl.
        -- apply IH in Hm as [Hsh [post ->]]. split.
           ++ intros [= <-]. split; [by constructor | by exists post].
           ++ intros [Hsh' [post' Heq]].
              apply Forall2_cons_inv_l in Hsh' as (c0 & l' & Hc0 & Hl' & ->).
              simpl in Heq. injection Heq as <- Heq. f_equal. f_equal.
              apply app_inj_1 in Heq as [-> _]; [done |].
              apply Forall2_length in Hsh, Hl'. congruence.
        -- split; [done |]. intros [Hsh [post Heq]].
           apply Forall2_cons_inv_l in Hsh as (c0 & l' & Hc0 & Hl' & ->).
           simpl in Heq. injection Heq as <- ->.
           assert (match_here pat (l' ++ post) = Some l') as Hm' by (apply IH; eauto).
           congruence.
      * split; [done |]. intros [Hsh [post Heq]].
        apply Forall2_cons_inv_l in Hsh as (c0 & l' & Hc0 & Hl' & ->).
        simpl in Heq. injection Heq as <- _. congruence.
Qed.

Lemma re_search_None pat : forall s,
  re_search pat s = None ->
  forall pre ts post, s = pre ++ ts ++ post -> ~ has_shape pat ts.
Proof.
  induction s as [| c s IH]; intros Hnone pre ts post Heq Hsh; simpl in Hnone.
  - destruct (match_here pat []) eqn:Hm; [done |].
    destruct pre; [| done]. simpl in Heq.
    assert (match_here pat [] = Some ts) by (apply match_here_spec; eauto).
    congruence.
  - destruct (match_here pat (c :: s)) eqn:Hm; [done |].
    destruct pre as [| c' pre]; simpl in Heq.
    + assert (match_here pat (c :: s) = Some ts) by (apply match_here_spec; eauto).
      congruence.
    + injection Heq as <- ->. by eapply IH.
Qed.

Lemma re_search_Some pat : forall s ts,
  re_search pat s = Some ts ->
  exists pre post,
    s = pre ++ ts ++ post /\ has_shape pat ts
    /\ forall pre' ts' post',
         s = pre' ++ ts' ++ post' -> has_shape pat ts' -> (length pre <= length pre')%nat.
Proof.
  induction s as [| c s IH]; intros ts Hsome; simpl in Hsome.
  - destruct (match_here pat []) as [ts0 |] eqn:Hm; [| done]. simplify_eq.
    apply match_here_spec in Hm as [Hsh [post Heq]].
    exists [], post. split_and!; [done | done | intros; simpl; lia].
  - destruct (match_here pat (c :: s)) as [ts0 |] eqn:Hm.
    + simplify_eq. apply match_here_spec in Hm as [Hsh [post Heq]].
      exists [], post. split_and!; [done | done | intros; simpl; lia].
    + apply IH in Hsome as (pre & post & -> & Hsh & Hleft).
      exists (c :: pre), post. split_and!; [done | done |].
      intros [| c' pre'] ts' post' Heq Hsh'; simpl in *.
      * assert (match_here pat (c :: pre ++ ts ++ post) = Some ts')
          by (apply match_here_spec; eauto).
        congruence.
      * injection Heq as <- Heq. apply Hleft in Heq; [lia | done].
Qed.

(** The leftmost substring of the wanted shape is the one found. *)
Lemma re_search_leftmost pat s pre ts post :
  s = pre ++ ts ++ post -> has_shape pat ts ->
  (forall pre' ts' post',
      s = pre' ++ ts' ++ post' -> has_shape pat ts' -> (length pre <= length pre')%nat) ->
  re_search pat s = Some ts.
Proof.
  intros Heq Hsh Hleft.
  destruct (re_search pat s) as [ts0 |] eqn:Hre.
  - apply re_search_Some in Hre as (pre0 & post0 & Heq0 & Hsh0 & Hleft0).
    pose proof (Hleft _ _ _ Heq0 Hsh0). pose proof (Hleft0 _ _ _ Heq Hsh).
    assert (length pre0 = length pre) as Hlen by lia.
    rewrite Heq in Heq0.
    apply app_inj_1 in Heq0 as [_ Heq0]; [| done].
    apply app_inj_1 in Heq0 as [-> _]; [done |].
    unfold has_shape in *.
    apply Forall2_length in Hsh, Hsh0. congruence.
  - exfalso. by eapply re_search_None.
Qed.

Lemma re_search_ext pat pat' s :
  Forall2 (fun f g : N -> bool => forall c, c ∈ s -> f c = g c) pat pat' ->
  re_search pat s = re_search pat' s.
Proof.
  intros Hext.
  assert (forall s', (forall c, c ∈ s' -> c ∈ s) ->
                     match_here pat s' = match_here pat' s') as Hhere.
  { clear -Hext. induction Hext as [| f g pat pat' Hfg _ IH]; intros s' Hsub.
    - done.
    - destruct s' as [| c s']; [done |]. simpl.
      rewrite (Hfg c) by (apply Hsub; left).
      rewrite IH; [done |]. intros c' Hc'. apply Hsub. by right. }
  assert (forall s', (forall c, c ∈ s' -> c ∈ s) ->
                     re_search pat s' = re_search pat' s') as Hall.
  { induction s' as [| c s' IH]; intros Hsub; simpl.
    - by rewrite Hhere.
    - rewrite Hhere by done. rewrite IH; [done |].
      intros c' Hc'. apply Hsub. by right. }
  by apply Hall.
Qed.

Lemma dash_true c : dash c = true <-> c = 45.
Proof. unfold dash. apply N.eqb_eq. Qed.

Lemma dash_or_space_true c : dash_or_space c = true <-> c = 45 \/ c = 32.
Proof. unfold dash_or_space. rewrite orb_true_iff, !N.eqb_eq. done. Qed.

Lemma digits_2 d l :
  digits d 2 l <-> exists a b, l = [a; b] /\ d a = true /\ d b = true.
Proof.
  unfold digits. split.
  - intros [Hlen Hall]. destruct l as [| a [| b [| c l]]]; try done.
    exists a, b. apply Forall_cons in Hall as [Ha Hall].
    by apply Forall_cons in Hall as [Hb _].
  - intros (a & b & -> & Ha & Hb). split; [done |]. by repeat constructor.
Qed.

Lemma digits_4 d l :
  digits d 4 l <->
  exists a b c e, l = [a; b; c; e] /\ d a = true /\ d b = true /\ d c = true /\ d e = true.
Proof.
  unfold digits. split.
  - intros [Hlen Hall]. destruct l as [| a [| b [| c [| e [| x l]]]]]; try done.
    exists a, b, c, e. apply Forall_cons in Hall as [Ha Hall].
    apply Forall_cons in Hall as [Hb Hall]. apply Forall_cons in Hall as [Hc Hall].
    by apply Forall_cons in Hall as [He _].
  - intros (a & b & c & e & -> & Ha & Hb & Hc & He). split; [done |].
    by repeat constructor.
Qed.

Lemma has_shape_timestamp ts :
  has_shape (timestamp_pattern is_decimal) ts <-> is_timestamp is_decimal ts.
Proof.
  unfold has_shape, timestamp_pattern, is_timestamp. split.
  - intros H.
    repeat match type of H with
           | Forall2 _ (_ :: _) _ =>
               let c := fresh "c" in let Hc := fresh "Hc" in
               apply Forall2_cons_inv_l in H as (c & ? & Hc & H & ->)
           end.
    apply Forall2_nil_inv_l in H as ->.
    repeat match goal with
           | H : dash _ = true |- _ => apply dash_true in H; subst
           end.
    match goal with H : dash_or_space _ = true |- _ => apply dash_or_space_true in H end.
    eexists [_; _; _; _], [_; _], [_; _], _, [_; _], [_; _], [_; _].
    split; [reflexivity |].
    rewrite digits_4, !digits_2. split_and!; eauto 10.
  - intros (y & mo & da & sep & h & mi & se & -> & Hy & Hmo & Hda & Hsep & Hh & Hmi & Hse).
    apply digits_4 in Hy as (? & ? & ? & ? & -> & ? & ? & ? & ?).
    apply digits_2 in Hmo as (? & ? & -> & ? & ?).
    apply digits_2 in Hda as (? & ? & -> & ? & ?).
    apply digits_2 in Hh as (? & ? & -> & ? & ?).
    apply digits_2 in Hmi as (? & ? & -> & ? & ?).
    apply digits_2 in Hse as (? & ? & -> & ? & ?).
    simpl. repeat constructor; try done.
    by apply dash_or_space_true.
Qed.

Lemma re_search_example :
  (forall c, c < 128 -> is_decimal c = ascii_digit c) ->
  re_search (timestamp_pattern is_decimal) (lit "notes_2025-10-05 14-30-00.md")
  = Some (lit "2025-10-05 14-30-00").
Proof.
  intros Hascii.
  rewrite (re_search_ext _ (timestamp_pattern ascii_digit)); [by vm_compute |].
  assert (forall c, c ∈ lit "notes_2025-10-05 14-30-00.md" -> c < 128) as Hlt.
  { assert (forallb (fun c => c <? 128) (lit "notes_2025-10-05 14-30-00.md") = true)
      as Hall by (by vm_compute).
    rewrite forallb_forall in Hall.
    intros c Hc. apply N.ltb_lt, Hall. by apply list_elem_of_In. }
  unfold timestamp_pattern.
  repeat constructor; intros c Hc; auto.
Qed.

(** *** Identifiers are not empty *)







(** *** Object elements *)



(** *** Arrays of objects and arrays of strings *)

Lemma parse_json_total path o m raw items w :
  script_files E path = Contents raw ->
  detect_json json_loads (strip raw) = Some items ->
  (forall i item w1, items !! i = Some item ->
     exists w2 seg, parse_item i item o m w1 = (w2, Ok seg)) ->
  exists w' segs,
    parse_podcast_script json_loads is_decimal E path o m w = (w', Ok segs)
    /\ length segs = length items
    /\ forall i item seg,
         items !! i = Some item -> segs !! i = Some seg -> item_segment i item o m seg.
Proof.
  intros Hfile Hjson Hall. rewrite (parse_json _ _ _ _ _ _ Hfile Hjson).
  destruct (parse_items_total items 0 o m [] (print MsgJsonDetected w).1 Hall)
    as (w1 & segs & Hrun).
  rewrite Hrun. eexists _, segs. split; [done |].
  apply parse_items_inv in Hrun as (new & -> & Hlen & Hnew). simpl.
  split; [done |]. intros i item seg Hi Hs. by eapply (Hnew i).
Qed.

Lemma parse_item_typed_object idx d o m w :
  typed_object d = true ->
  exists w' seg, parse_item idx (PDict d) o m w = (w', Ok seg).
Proof.
  unfold typed_object, str_or_absent, parse_item, parse_dict_item.
  unfold bind, ret, raise, print, when. intros Htyped.
  repeat case_match; simplify_eq; simpl in *; eauto; done.
Qed.

Lemma parse_item_object_fields idx d o m w w' seg :
  parse_item idx (PDict d) o m w = (w', Ok seg) ->
  title seg = field d "title" (segment_name idx)
  /\ script seg = field d "script" []
  /\ channel_id seg = field d "channel_id" [].
Proof.
  unfold parse_item, parse_dict_item, field, bind, ret, raise, print, when.
  intros H. repeat case_match; by simplify_eq.
Qed.

Lemma parse_item_string idx s o m w :
  exists w' id,
    parse_item idx (PStr s) o m w
    = (w', Ok {| title := PStr (segment_name idx); script := PStr s;
                 arxiv_id := id; channel_id := PStr [] |}).
Proof.
  unfold parse_item, parse_str_item, bind, ret, print.
  destruct (m !! paper_key idx); eexists _, _; reflexivity.
Qed.

Lemma field_null d key dflt :
  field d key dflt = PNone <-> d !! lit key = Some PNone.
Proof.
  unfold field. destruct (d !! lit key) as [v |]; simpl; [| done].
  split; congruence.
Qed.

(** C4 (amended): a JSON array of objects whose [title] and [arxiv_id],
    where present, are strings is parsed into exactly one segment per
    element; each of [title], [script] and [channel_id] is the value the
    object gives for that key, or the default when the key is absent, so a
    field is null only where the object gives [null].  A JSON array of N
    strings is parsed into N segments, the i-th with title [segment_<i>],
    the i-th string as script and the empty string as [channel_id]. *)
Theorem array_elements_to_segments path o m raw items w :
  script_files E path = Contents raw ->
  json_loads (strip raw) = Some (PList items) ->
  (forall ds, items = PDict <$> ds -> forallb typed_object ds = true ->
     exists w' segs,
       parse_podcast_script json_loads is_decimal E path o m w = (w', Ok segs)
       /\ length segs = length items
       /\ forall i d, ds !! i = Some d ->
            exists seg,
              segs !! i = Some seg
              /\ title seg = field d "title" (segment_name i)
              /\ script seg = field d "script" []
              /\ channel_id seg = field d "channel_id" []
              /\ title seg <> PNone
              /\ (script seg = PNone <-> d !! lit "script" = Some PNone)
              /\ (channel_id seg = PNone <-> d !! lit "channel_id" = Some PNone))
  /\ (forall ss, items = PStr <$> ss ->
        exists w' segs,
          parse_podcast_script json_loads is_decimal E path o m w = (w', Ok segs)
          /\ length segs = length ss
          /\ forall i s, ss !! i = Some s ->
               exists seg,
                 segs !! i = Some seg
                 /\ title seg = PStr (segment_name i)
                 /\ script seg = PStr s
                 /\ channel_id seg = PStr []).
Proof.
  intros Hfile Hloads.
  assert (detect_json json_loads (strip raw) = Some items) as Hjson
    by (unfold detect_json; by rewrite Hloads).
  split.
  - intros ds -> Htyped.
    destruct (parse_json_total path o m raw (PDict <$> ds) w Hfile Hjson)
      as (w' & segs & Hparse & Hlen & Hsegs).
    { intros i item w1 Hi. apply list_lookup_fmap_Some in Hi as (d & -> & Hd).
      apply parse_item_typed_object.
      rewrite forallb_forall in Htyped. apply Htyped.
      apply list_elem_of_In. by eapply list_elem_of_lookup_2. }
    exists w', segs. split_and!; [done | done |].
    intros i d Hd.
    destruct (segs !! i) as [seg |] eqn:Hseg.
    + exists seg. split; [done |].
      destruct (Hsegs i (PDict d) seg) as (w1 & w2 & Hone);
        [by rewrite list_lookup_fmap, Hd | done |].
      destruct (parse_item_object_fields _ _ _ _ _ _ _ Hone) as (Ht & Hs & Hc).
      rewrite Ht, Hs, Hc. split_and!; [done | done | done | | |];
        [| apply field_null | apply field_null].
      rewrite forallb_forall in Htyped.
      assert (typed_object d = true) as Hd'
        by (apply Htyped, list_elem_of_In; by eapply list_elem_of_lookup_2).
      unfold typed_object, str_or_absent, field in *.
      by destruct (d !! lit "title") as [[] |].
    + apply lookup_ge_None in Hseg. apply lookup_lt_Some in Hd.
      rewrite length_fmap in Hlen. lia.
  - intros ss ->.
    destruct (parse_json_total path o m raw (PStr <$> ss) w Hfile Hjson)
      as (w' & segs & Hparse & Hlen & Hsegs).
    { intros i item w1 Hi. apply list_lookup_fmap_Some in Hi as (s & -> & Hs).
      destruct (parse_item_string i s o m w1) as (w2 & id & Hone). eauto. }
    rewrite length_fmap in Hlen.
    exists w', segs. split_and!; [done | done |].
    intros i s Hs.
    destruct (segs !! i) as [seg |] eqn:Hseg.
    + exists seg. split; [done |].
      destruct (Hsegs i (PStr s) seg) as (w1 & w2 & Hone);
        [by rewrite list_lookup_fmap, Hs | done |].
      destruct (parse_item_string i s o m w1) as (w3 & id & Hone').
      rewrite Hone' in Hone. by simplify_eq.
    + apply lookup_ge_None in Hseg. apply lookup_lt_Some in Hs. lia.
Qed.

(** *** The identifier of a Markdown script *)

(** C5: a script that is not a JSON array becomes one segment, whose
    identifier is, in this order: the override given by the caller when there
    is one; else the entry [paper_0] of the ID mapping; else the leftmost
    [YYYY-MM-DD HH-MM-SS] timestamp (date and time joined by a space or a
    dash) of the file name, with the space turned into a dash; else
    [podcast_<unix-timestamp>].  For the file name
    [notes_2025-10-05 14-30-00.md], without override and without mapping
    entry, the identifier is [2025-10-05-14-30-00]. *)
Theorem markdown_identifier_priority (path : pystr) (o : option pystr)
    (m : gmap (list N) (list N)) (raw : pystr) (w : world) :
  script_files E path = Contents raw ->
  detect_json json_loads (strip raw) = None ->
  exists w' seg,
    parse_podcast_script json_loads is_decimal E path o m w = (w', Ok [seg])
    /\ (forall c s, o = Some (c :: s) -> arxiv_id seg = c :: s)
    /\ (o = None \/ o = Some [] ->
        (forall v, m !! lit "paper_0" = Some v -> arxiv_id seg = v)
        /\ (m !! lit "paper_0" = None ->
            (forall pre ts post,
                basename path = pre ++ ts ++ post ->
                is_timestamp is_decimal ts ->
                (forall pre' ts' post',
                    basename path = pre' ++ ts' ++ post' ->
                    is_timestamp is_decimal ts' -> (length pre <= length pre')%nat) ->
                arxiv_id seg = replace_char 32 45 ts)
            /\ ((forall pre ts post,
                    basename path = pre ++ ts ++ post -> ~ is_timestamp is_decimal ts) ->
                arxiv_id seg = lit "podcast_" ++ str_of_Z (unix_time E))
            /\ ((forall c, c < 128 -> is_decimal c = ascii_digit c) ->
                basename path = lit "notes_2025-10-05 14-30-00.md" ->
                arxiv_id seg = lit "2025-10-05-14-30-00"))).
Proof.
  intros Hfile Hjson. rewrite (parse_markdown _ _ _ _ _ Hfile Hjson).
  destruct (markdown_arxiv_id_Ok path o m (print MsgMarkdownDetected w).1)
    as (w1 & id & Hid).
  rewrite Hid. eexists _, _. split; [reflexivity |]. simpl.
  unfold markdown_arxiv_id, bind, ret, print in Hid.
  split.
  - intros c s ->. by simplify_eq.
  - intros Ho.
    assert (match m !! lit "paper_0" with
            | Some v => id = v
            | None =>
                match re_search (timestamp_pattern is_decimal) (basename path) with
                | Some ts => id = replace_char 32 45 ts
                | None => id = lit "podcast_" ++ str_of_Z (unix_time E)
                end
            end) as Hcases.
    { destruct Ho as [-> | ->]; repeat case_match; by simplify_eq. }
    clear Hid. split.
    + intros v Hv. by rewrite Hv in Hcases.
    + intros Hnone. rewrite Hnone in Hcases. split_and!.
      * intros pre ts post Heq Hts Hleft.
        rewrite (re_search_leftmost _ _ pre ts post) in Hcases; [done | done | |].
        -- by apply has_shape_timestamp.
        -- intros pre' ts' post' Heq' Hts'. eapply Hleft; [done |].
           by apply has_shape_timestamp.
      * intros Hno.
        destruct (re_search _ _) as [ts |] eqn:Hre; [| done].
        apply re_search_Some in Hre as (pre & post & Heq & Hsh & _).
        exfalso. eapply Hno; [done |]. by apply has_shape_timestamp.
      * intros Hascii Hname. rewrite Hname, re_search_example in Hcases by done.
        rewrite Hcases. by vm_compute.
Qed.

(** *** Voice references *)

Lemma main_startup_Raise a w w1 e :
  arg_check_only a = false ->
  startup json_loads is_decimal E a (print MsgBanner w).1 = (w1, Raise e) ->
  main json_loads is_decimal path_join E a w = (w1, Raise e).
Proof.
  intros Hco Hs. rewrite main_startup_batch, Hco. unfold bind at 1. simpl.
  by erewrite bind_Raise by exact Hs.
Qed.

Lemma main_startup_Ok a w w1 refs segs :
  arg_check_only a = false ->
  startup json_loads is_decimal E a (print MsgBanner w).1 = (w1, Ok (refs, segs)) ->
  main json_loads is_decimal path_join E a w = batch path_join E a refs segs w1.
Proof.
  intros Hco Hs. rewrite main_startup_batch, Hco. unfold bind at 1. simpl.
  by erewrite bind_Ok by exact Hs.
Qed.

(** C7 (amended): the reference loader reads each of the two sample files
    [female_base64.txt] and [male_base64.txt] as text that already holds the
    base64 encoding, strips the surrounding white space and puts it, as it
    is, behind the prefix [data:audio/mpeg;base64,], paired with the fixed
    transcript of that sample; it encodes nothing itself.  A missing sample
    file is skipped with a warning; when no reference is left the loader
    exits with status 1, and so does the run, before any request is sent. *)
Theorem voice_references_from_text_files (a : args) (w : world) :
  female_base64_txt E <> Unreadable ->
  male_base64_txt E <> Unreadable ->
  exists w',
    load_voice_references E w
    = (w', match loaded_reference (female_base64_txt E) female_transcript
                 ++ loaded_reference (male_base64_txt E) male_transcript with
           | [] => Raise (SystemExit 1)
           | refs => Ok refs
           end)
    /\ requests w' = requests w
    /\ (female_base64_txt E = Absent -> WarnNoFemaleReference ∈ stdout w')
    /\ (male_base64_txt E = Absent -> WarnNoMaleReference ∈ stdout w')
    /\ (female_base64_txt E = Absent -> male_base64_txt E = Absent ->
        arg_check_only a = false ->
        exit_status (main json_loads is_decimal path_join E a w).2 = 1%Z
        /\ requests (main json_loads is_decimal path_join E a w).1 = requests w
        /\ written (main json_loads is_decimal path_join E a w).1 = written w).
Proof.
  intros Hf Hm.
  assert (forall w0, female_base64_txt E = Absent -> male_base64_txt E = Absent ->
            exists w1, load_voice_references E w0 = (w1, Raise (SystemExit 1))
                       /\ requests w1 = requests w0 /\ written w1 = written w0)
    as Hnone.
  { intros w0 Hfa Hma. unfold load_voice_references, load_reference.
    rewrite Hfa, Hma. unfold bind, ret, raise, print. simpl. eauto. }
  unfold load_voice_references, load_reference, loaded_reference.
  destruct (female_base64_txt E) as [| | fraw] eqn:Hfe; [| done |];
    destruct (male_base64_txt E) as [| | mraw] eqn:Hma; try done;
    unfold bind, ret, raise, print; simpl;
    eexists; (split; [reflexivity |]); simpl;
    (split; [done |]).
  - split; [intros _; set_solver |]. split; [intros _; set_solver |].
    intros _ _ Hco.
    destruct (Hnone (print MsgBanner w).1 eq_refl eq_refl) as (w1 & Hl & Hr & Hw).
    rewrite (main_startup_Raise a w w1 (SystemExit 1)); [| done |].
    + simpl. split; [done |]. by rewrite Hr, Hw.
    + unfold startup. by erewrite bind_Raise by exact Hl.
  - split; [intros _; set_solver |]. by split.
  - split; [done |]. split; [intros _; set_solver | done].
  - by split_and!.
Qed.

(** *** The synthesis loop *)

Lemma generate_audio_spec text refs path v w :
  exists w',
    generate_audio E text refs path v w
    = (w', Ok (synthesis_ok E (length (requests w)) text refs path))
    /\ requests w' = requests w ++ [(text, refs)]
    /\ (no_report w -> no_report w')
    /\ (synthesis_ok E (length (requests w)) text refs path = false ->
        written w' = written w /\ ErrGenerate ∈ stdout w').
Proof.
  unfold generate_audio, try_except, request_speech, write_audio, synthesis_ok.
  unfold when, bind, ret, raise, print.
  destruct v; simpl;
    destruct (tts E (length (requests w)) text refs) as [data |]; simpl;
    try destruct (can_write E path); simpl;
    eexists; (split; [reflexivity |]); simpl;
    (split; [done |]); split.
  all: first
    [ by intros [=]
    | intros _; split; [done | apply elem_of_app; right; by left]
    | intros Hno p r; simpl; first
        [ apply Hno
        | destruct (decide (path = p)) as [-> | Hne];
          [ rewrite lookup_insert_eq; congruence
          | rewrite lookup_insert_ne by done; apply Hno ] ] ].
Qed.

Lemma process_segment_inv a refs idx s t w w' r :
  process_segment path_join E a refs idx s t w = (w', r) ->
  (no_report w -> no_report w')
  /\ match r with
     | Ok t' =>
         requests w' = requests w ++ [(script s, refs)]
         /\ t' = (if synthesis_ok E (length (requests w)) (script s) refs
                       (output_path_of path_join a s)
                  then count_success (outcome_of path_join a s) t
                  else count_failure t)
     | Raise e => e = TypeError
     end.
Proof.
  unfold process_segment, print_details.
  assert (forall w0, requests w0 = requests w -> (no_report w -> no_report w0) ->
            (let! ok := generate_audio E (script s) refs (output_path_of path_join a s)
                          (arg_verbose a) in
             if ok
             then if sliceable (title s)
                  then print (MsgSegmentOk idx (arxiv_id s)) >>
                       ret {| success_count := S (success_count t);
                              failed_count := failed_count t;
                              generated_files :=
                                generated_files t ++ [outcome_of path_join a s] |}
                  else raise TypeError
             else print (ErrSegmentFailed idx (arxiv_id s)) >>
                  ret {| success_count := success_count t;
                         failed_count := S (failed_count t);
                         generated_files := generated_files t |}) w0 = (w', r) ->
            (no_report w -> no_report w')
            /\ match r with
               | Ok t' =>
                   requests w' = requests w ++ [(script s, refs)]
                   /\ t' = (if synthesis_ok E (length (requests w)) (script s) refs
                                 (output_path_of path_join a s)
                            then count_success (outcome_of path_join a s) t
                            else count_failure t)
               | Raise e => e = TypeError
               end) as Hrest.
  { intros w0 Hreq Hno.
    destruct (generate_audio_spec (script s) refs (output_path_of path_join a s)
                (arg_verbose a) w0) as (w1 & Hgen & Hreq1 & Hno1 & _).
    rewrite (bind_Ok _ _ _ _ _ Hgen). rewrite Hreq in *.
    destruct (synthesis_ok _ _ _ _ _); [destruct (sliceable (title s)) |];
      unfold bind, ret, raise, print; simpl; intros [= <- <-]; simpl;
      (split; [intros H; by apply Hno1, Hno |]); done. }
  unfold when. destruct (arg_verbose a).
  - unfold bind at 1. unfold bind at 1. simpl.
    destruct (has_len (script s)); unfold ret, raise; simpl.
    + apply Hrest; [done | by intros H].
    + by intros [= <- <-].
  - unfold bind at 1. unfold ret at 1. apply Hrest; done.
Qed.


Lemma successful_sublist a refs segs : forall n,
  successful path_join E a refs n segs `sublist_of` segs.
Proof.
  induction segs as [| s rest IH]; intros n; simpl; [done |].
  destruct (synthesis_ok _ _ _ _ _); [by apply sublist_skip | by apply sublist_cons].
Qed.

Lemma synthesize_inv a refs segs : forall idx t w w' r,
  synthesize path_join E a refs idx segs t w = (w', r) ->
  (no_report w -> no_report w')
  /\ match r with
     | Ok t' =>
         requests w' = requests w ++ ((fun s => (script s, refs)) <$> segs)
         /\ generated_files t'
            = generated_files t
              ++ (outcome_of path_join a
                    <$> successful path_join E a refs (length (requests w)) segs)
         /\ success_count t'
            = (success_count t
               + length (successful path_join E a refs (length (requests w)) segs))%nat
         /\ (failed_count t'
             + length (successful path_join E a refs (length (requests w)) segs)
             = failed_count t + length segs)%nat
     | Raise e => True
     end.
Proof.
  induction segs as [| s rest IH]; intros idx t w w' r H; simpl in *.
  - unfold ret in H. simplify_eq. split; [done |].
    rewrite !app_nil_r. split_and!; [done | done | lia | lia].
  - destruct (process_segment path_join E a refs idx s t w) as [w1 [t1 | e]] eqn:Hone.
    + rewrite (bind_Ok _ _ _ _ _ Hone) in H.
      apply process_segment_inv in Hone as (Hno1 & Hreq1 & Ht1).
      apply IH in H as (Hno & Hres).
      split; [intros Hw; by apply Hno, Hno1 |].
      destruct r as [t' |]; [| done].
      destruct Hres as (Hreq & Hfiles & Hsucc & Hfail).
      rewrite Hreq1 in Hreq, Hfiles, Hsucc, Hfail.
      rewrite length_app in Hfiles, Hsucc, Hfail. simpl in *.
      replace (length (requests w) + 1)%nat with (S (length (requests w)))
        in Hfiles, Hsucc, Hfail by lia.
      split; [by rewrite Hreq, <- app_assoc |].
      destruct (synthesis_ok E (length (requests w)) (script s) refs
                  (output_path_of path_join a s));
        subst t1; simpl in *.
      * rewrite <- app_assoc in Hfiles. split_and!; [done | lia | lia].
      * split_and!; [done | lia | lia].
    + rewrite (bind_Raise _ _ _ _ _ Hone) in H. simplify_eq.
      apply process_segment_inv in Hone as (Hno1 & _). done.
Qed.

Lemma batch_spec a refs segs w :
  match synthesize path_join E a refs 0 segs tally0 (print (MsgAudioStart (length segs)) w).1 with
  | (w1, Ok t) =>
      exists w',
        batch path_join E a refs segs w
        = (w', if (0 <? failed_count t)%nat then Raise (SystemExit 1) else Ok tt)
        /\ requests w' = requests w1
        /\ written w' = <[result_file path_join a := ReportJson (report_of E t)]> (written w1)
  | (w1, Raise e) => batch path_join E a refs segs w = (w1, Raise e)
  end.
Proof.
  unfold batch, tally0, bind, write_report, print, ret, raise, report_of. simpl.
  destruct (synthesize _ _ _ _ _ _ _ _) as [w1 [t | e]]; [| done].
  destruct (0 <? failed_count t)%nat; eexists; (split; [reflexivity |]); done.
Qed.

(** *** The report and the exit status *)

Lemma startup_Ok_inv a w w0 refs segs :
  startup json_loads is_decimal E a w = (w0, Ok (refs, segs)) ->
  exists m wa,
    parse_podcast_script json_loads is_decimal E (arg_script a) None m wa = (w0, Ok segs).
Proof.
  unfold startup. intros H.
  apply bind_inv_Ok in H as (w1 & refs' & _ & H).
  apply bind_inv_Ok in H as (w2 & [] & _ & H).
  apply bind_inv_Ok in H as (w3 & m & _ & H).
  apply bind_inv_Ok in H as (w4 & segs' & Hparse & H).
  unfold ret in H. simplify_eq. eauto.
Qed.

Lemma no_report_empty w : written w = ∅ -> no_report w.
Proof. intros H p r. by rewrite H, lookup_empty. Qed.

(** A run that wrote its report went through the whole loop. *)
Lemma main_report_inv a w' r rep :
  main json_loads is_decimal path_join E a world0 = (w', r) ->
  written w' !! result_file path_join a = Some (ReportJson rep) ->
  exists refs segs w0 w1 t,
    startup json_loads is_decimal E a (print MsgBanner world0).1 = (w0, Ok (refs, segs))
    /\ requests w0 = []
    /\ synthesize path_join E a refs 0 segs tally0
         (print (MsgAudioStart (length segs)) w0).1 = (w1, Ok t)
    /\ requests w' = requests w1
    /\ rep = report_of E t
    /\ r = (if (0 <? failed_count t)%nat then Raise (SystemExit 1) else Ok tt).
Proof.
  intros Hmain Hrep.
  destruct (arg_check_only a) eqn:Hco.
  { rewrite main_startup_batch, Hco in Hmain.
    unfold bind, print in Hmain. simpl in Hmain. simplify_eq. }
  pose proof (quiet_startup a (print MsgBanner world0).1) as [Hq1 Hq2].
  destruct (startup json_loads is_decimal E a (print MsgBanner world0).1)
    as [w0 [[refs segs] | e]] eqn:Hs; simpl in Hq1, Hq2.
  - rewrite (main_startup_Ok _ _ _ _ _ Hco Hs) in Hmain.
    pose proof (batch_spec a refs segs w0) as Hb.
    destruct (synthesize _ _ _ _ _ _ _ _) as [w1 [t | e]] eqn:Hrun.
    + destruct Hb as (w2 & Hb & Hreq & Hwr). rewrite Hb in Hmain. simplify_eq.
      rewrite Hwr, lookup_insert_eq in Hrep. simplify_eq.
      by exists refs, segs, w0, w1, t.
    + rewrite Hb in Hmain. simplify_eq.
      apply synthesize_inv in Hrun as [Hno _].
      exfalso. eapply Hno; [| exact Hrep]. by apply no_report_empty.
  - rewrite (main_startup_Raise _ _ _ _ Hco Hs) in Hmain. simplify_eq.
    by rewrite Hq2 in Hrep.
Qed.

(** C8: once all segments are processed and the report is written, the run
    ends with a non-zero exit status if and only if the failed count is
    greater than zero, whatever the success count: status 0 when no segment
    failed, status 1 when at least one did. *)
Theorem exit_status_reflects_failures (a : args) (w' : world) (r : result unit)
    (rep : run_report) :
  main json_loads is_decimal path_join E a world0 = (w', r) ->
  written w' !! result_file path_join a = Some (ReportJson rep) ->
  (exit_status r <> 0%Z <-> (0 < failed rep)%nat)
  /\ (failed rep = 0%nat -> exit_status r = 0%Z)
  /\ ((0 < failed rep)%nat -> exit_status r = 1%Z).
Proof.
  intros Hmain Hrep.
  destruct (main_report_inv _ _ _ _ Hmain Hrep)
    as (refs & segs & w0 & w1 & t & _ & _ & _ & _ & -> & ->).
  simpl. destruct (failed_count t) as [| n]; simpl.
  - split_and!; [split; [done | lia] | done | lia].
  - split_and!; [split; [lia | done] | done | done].
Qed.

(** C10: the report a run writes is consistent with the parsed segments:
    [success] is the length of [files], [success + failed] is the number of
    segments, and [files] lists, in the order of the segments and once
    each, the outcomes of exactly those segments whose synthesis succeeded.
    One request was sent per segment. *)
Theorem report_consistent (a : args) (w' : world) (r : result unit)
    (rep : run_report) :
  main json_loads is_decimal path_join E a world0 = (w', r) ->
  written w' !! result_file path_join a = Some (ReportJson rep) ->
  exists refs segs m wa wb,
    parse_podcast_script json_loads is_decimal E (arg_script a) None m wa = (wb, Ok segs)
    /\ success rep = length (files rep)
    /\ (success rep + failed rep = length segs)%nat
    /\ files rep = outcome_of path_join a <$> successful path_join E a refs 0 segs
    /\ successful path_join E a refs 0 segs `sublist_of` segs
    /\ requests w' = (fun s => (script s, refs)) <$> segs.
Proof.
  intros Hmain Hrep.
  destruct (main_report_inv _ _ _ _ Hmain Hrep)
    as (refs & segs & w0 & w1 & t & Hs & Hreq0 & Hrun & Hreq & -> & _).
  apply startup_Ok_inv in Hs as (m & wa & Hparse).
  apply synthesize_inv in Hrun as (_ & Hreq1 & Hfiles & Hsucc & Hfail).
  simpl in *. rewrite Hreq0 in *. simpl in *.
  exists refs, segs, m, wa, w0. split_and!.
  - done.
  - rewrite Hfiles, length_fmap. lia.
  - lia.
  - done.
  - apply successful_sublist.
  - congruence.
Qed.

(** *** Failures of single segments *)



(** *** Objects the progress lines cannot print *)


End Proofs.

(** ** The [.env] file and the API key *)

(** *** Stripping *)

Lemma lstrip_drop_while s : lstrip s = drop_while is_space s.
Proof. induction s as [| c s IH]; simpl; [done | by rewrite IH]. Qed.

Lemma lstrip_char_drop_while c s : lstrip_char c s = drop_while (fun x => x =? c) s.
Proof. induction s as [| x s IH]; simpl; [done | by rewrite IH]. Qed.

Lemma drop_while_all p (s t : pystr) :
  forallb p s = true -> drop_while p (s ++ t) = drop_while p t.
Proof.
  induction s as [| c s IH]; simpl; [done |].
  intros [-> H]%andb_true_iff. by apply IH.
Qed.

Lemma drop_while_head p (s : pystr) :
  match head s with Some c => negb (p c) | None => true end = true ->
  drop_while p s = s.
Proof. destruct s as [| c s]; simpl; [done |]. by intros ->%negb_true_iff. Qed.

Lemma head_app_ne {A} (s t : list A) : s <> [] -> head (s ++ t) = head s.
Proof. by destruct s. Qed.

Lemma head_rev {A} (s : list A) : head (rev s) = last s.
Proof.
  induction s as [| c s IH] using rev_ind; [done |].
  by rewrite rev_app_distr, last_snoc.
Qed.

(** [rev (drop_while p (rev .))] of a padded text. *)
Lemma trim_padded p (p1 s p2 : pystr) :
  forallb p p1 = true -> forallb p p2 = true -> ends_free p s = true ->
  rev (drop_while p (rev (drop_while p (p1 ++ s ++ p2)))) = s.
Proof.
  intros H1 H2 [Hh Hl]%andb_true_iff.
  rewrite drop_while_all by done.
  destruct (decide (s = [])) as [-> | Hs].
  - simpl. rewrite <- (app_nil_r p2) at 1. rewrite drop_while_all by done. simpl.
    done.
  - rewrite (drop_while_head p (s ++ p2)) by (by rewrite head_app_ne).
    rewrite rev_app_distr. rewrite drop_while_all.
    + rewrite drop_while_head; [apply rev_involutive |]. by rewrite head_rev.
    + rewrite forallb_forall in *. intros x Hx. apply H2. by apply in_rev.
Qed.

Lemma strip_padded (p1 s p2 : pystr) :
  blank p1 = true -> blank p2 = true -> ends_free is_space s = true ->
  strip (p1 ++ s ++ p2) = s.
Proof.
  intros. unfold strip. rewrite !lstrip_drop_while. by apply trim_padded.
Qed.

Lemma strip_char_padded c (p1 s p2 : pystr) :
  forallb (fun x => x =? c) p1 = true -> forallb (fun x => x =? c) p2 = true ->
  ends_free (fun x => x =? c) s = true ->
  strip_char c (p1 ++ s ++ p2) = s.
Proof.
  intros. unfold strip_char. rewrite !lstrip_char_drop_while. by apply trim_padded.
Qed.

Lemma split_first_app c (k v : pystr) :
  c ∉ k -> split_first c (k ++ c :: v) = Some (k, v).
Proof.
  induction k as [| x k IH]; simpl; intros Hk.
  - by rewrite N.eqb_refl.
  - apply not_elem_of_cons in Hk as [Hx Hk].
    destruct (N.eqb_spec x c); [congruence |]. by rewrite IH.
Qed.

(** *** One line of the file *)

Lemma ends_free_weaken (p q : N -> bool) (s : pystr) :
  (forall c, q c = true -> p c = true) -> ends_free p s = true -> ends_free q s = true.
Proof.
  intros Hpq. unfold ends_free.
  intros [H1 H2]%andb_true_iff. apply andb_true_iff. split.
  - destruct (head s) as [c|]; [| done]. apply negb_true_iff in H1. apply negb_true_iff.
    destruct (q c) eqn:Hq; [| done]. apply Hpq in Hq. congruence.
  - destruct (last s) as [c|]; [| done]. apply negb_true_iff in H2. apply negb_true_iff.
    destruct (q c) eqn:Hq; [| done]. apply Hpq in Hq. congruence.
Qed.

Lemma ends_free_app p (s t : pystr) :
  s <> [] -> t <> [] ->
  match head s with Some c => negb (p c) | None => true end = true ->
  match last t with Some c => negb (p c) | None => true end = true ->
  ends_free p (s ++ t) = true.
Proof.
  intros Hs Ht H1 H2. unfold ends_free. rewrite head_app_ne by done.
  rewrite H1. simpl.
  destruct t as [| c t] using rev_ind; [done |].
  rewrite app_assoc, last_snoc. by rewrite last_snoc in H2.
Qed.

Lemma blank_no c (p : pystr) : blank p = true -> is_space c = false -> c ∉ p.
Proof.
  unfold blank. rewrite forallb_forall. intros H Hc Hin.
  apply list_elem_of_In in Hin. apply H in Hin. congruence.
Qed.

Lemma quoted_ends (q v : pystr) :
  q = [] \/ q = [34] \/ q = [39] ->
  (q = [] -> ends_free is_space v = true) ->
  q ++ v ++ q <> [] ->
  ends_free is_space (q ++ v ++ q) = true.
Proof.
  intros [-> | [-> | ->]] Hv Hne.
  - rewrite app_nil_r. simpl. by apply Hv.
  - change ([34] ++ v ++ [34]) with ([34] ++ (v ++ [34])).
    apply ends_free_app; [done | by destruct v | done | by rewrite last_snoc].
  - change ([39] ++ v ++ [39]) with ([39] ++ (v ++ [39])).
    apply ends_free_app; [done | by destruct v | done | by rewrite last_snoc].
Qed.

Lemma strip_char_free c (v : pystr) :
  ends_free (fun x => x =? c) v = true -> strip_char c v = v.
Proof.
  intros H. pose proof (strip_char_padded c [] v [] eq_refl eq_refl H) as H1.
  simpl in H1. by rewrite app_nil_r in H1.
Qed.

Lemma strip_free (v : pystr) : ends_free is_space v = true -> strip v = v.
Proof.
  intros H. pose proof (strip_padded [] v [] eq_refl eq_refl H) as H1.
  simpl in H1. by rewrite app_nil_r in H1.
Qed.

Lemma unquote (q v : pystr) :
  q = [] \/ q = [34] \/ q = [39] ->
  ends_free is_quote v = true ->
  strip_char 39 (strip_char 34 (q ++ v ++ q)) = v.
Proof.
  intros Hq Hv.
  assert (H34 : ends_free (fun x => x =? 34) v = true).
  { revert Hv. apply ends_free_weaken. unfold is_quote. by intros c ->. }
  assert (H39 : ends_free (fun x => x =? 39) v = true).
  { revert Hv. apply ends_free_weaken. unfold is_quote. intros c ->. apply orb_true_r. }
  destruct Hq as [-> | [-> | ->]].
  - simpl. rewrite app_nil_r. rewrite (strip_char_free 34) by done. by apply strip_char_free.
  - rewrite (strip_char_padded 34 [34] v [34]) by done. by apply strip_char_free.
  - rewrite (strip_char_free 34).
    + by rewrite (strip_char_padded 39 [39] v [39]).
    + change ([39] ++ v ++ [39]) with ([39] ++ (v ++ [39])).
      apply ends_free_app; [done | by destruct v | done | by rewrite last_snoc].
Qed.

Lemma startswith_hash (s : pystr) : head s <> Some 35 -> startswith s (lit "#") = false.
Proof.
  change (lit "#") with [35]. destruct s as [| c s]; [done |].
  cbn -[N.eqb]. intros H. destruct (N.eqb_spec 35 c) as [<- |]; [by destruct H | done].
Qed.

(** X2: a line of [.env] that reads [KEY = value], [KEY = "value"] or
    [KEY = 'value'], with any white space around the name, the [=] and the
    value and at the end of the line, sets [KEY] to [value].  The name is
    what precedes the first [=], so the value may hold [=] itself; white
    space inside the quotes is kept.  Here the name is not empty, holds no
    [=], does not start with [#] and neither starts nor ends with white
    space; the value neither starts nor ends with a quote character, nor,
    when it is written without quotes, with white space. *)
Theorem env_line_round_trip (p1 k p2 p3 q v p4 : pystr) :
  blank p1 = true -> blank p2 = true -> blank p3 = true -> blank p4 = true ->
  k <> [] -> 61 ∉ k -> ends_free is_space k = true -> head k <> Some 35 ->
  q = [] \/ q = [34] \/ q = [39] ->
  ends_free is_quote v = true ->
  (q = [] -> ends_free is_space v = true) ->
  env_assignment (p1 ++ k ++ p2 ++ 61 :: p3 ++ q ++ v ++ q ++ p4) = Some (k, v).
Proof.
  intros B1 B2 B3 B4 Hk Hk61 Hks Hk35 Hq Hvq Hvs.
  assert (Hkh : match head k with Some c => negb (is_space c) | None => true end = true).
  { unfold ends_free in Hks. by apply andb_true_iff in Hks as [? _]. }
  assert (Hsplit : forall value, split_first 61 (k ++ p2 ++ 61 :: value) = Some (k ++ p2, value)).
  { intros value. rewrite app_assoc. apply split_first_app.
    rewrite elem_of_app. intros [? | ?]; [done |]. by eapply (blank_no 61 p2). }
  assert (Hkey : strip (k ++ p2) = k).
  { by apply (strip_padded [] k p2). }
  assert (Hhead : forall rest, head ((k ++ p2 ++ 61 :: rest)) <> Some 35).
  { intros rest. by rewrite head_app_ne. }
  unfold env_assignment.
  destruct (decide (q ++ v ++ q = [])) as [Hb | Hb].
  - assert (q = [] /\ v = []) as [-> ->].
    { destruct q; [| done]. by destruct v. }
    simpl.
    assert (Hline : strip (p1 ++ k ++ p2 ++ 61 :: p3 ++ p4) = k ++ p2 ++ [61]).
    { replace (p1 ++ k ++ p2 ++ 61 :: p3 ++ p4)
        with (p1 ++ (k ++ p2 ++ [61]) ++ (p3 ++ p4)) by (by rewrite <- !app_assoc).
      apply strip_padded; [done | | ].
      - unfold blank in *. rewrite forallb_app. by rewrite B3, B4.
      - rewrite app_assoc. apply ends_free_app; [by destruct k | done | | done].
        by rewrite head_app_ne. }
    rewrite Hline.
    rewrite startswith_hash by apply Hhead.
    rewrite bool_decide_eq_false_2 by (by destruct k). simpl.
    rewrite Hsplit, Hkey. done.
  - assert (Hbody : ends_free is_space (q ++ v ++ q) = true) by (by apply quoted_ends).
    assert (Hline : strip (p1 ++ k ++ p2 ++ 61 :: p3 ++ q ++ v ++ q ++ p4)
                    = k ++ p2 ++ 61 :: p3 ++ q ++ v ++ q).
    { replace (p1 ++ k ++ p2 ++ 61 :: p3 ++ q ++ v ++ q ++ p4)
        with (p1 ++ (k ++ p2 ++ 61 :: p3 ++ q ++ v ++ q) ++ p4)
        by (by rewrite <- !app_assoc; simpl; rewrite <- !app_assoc).
      apply strip_padded; [done | done |].
      replace (k ++ p2 ++ 61 :: p3 ++ q ++ v ++ q)
        with ((k ++ p2 ++ 61 :: p3) ++ (q ++ v ++ q))
        by (by rewrite <- !app_assoc; simpl).
      apply ends_free_app; [by destruct k | done | by rewrite head_app_ne |].
      unfold ends_free in Hbody. by apply andb_true_iff in Hbody as [_ ?]. }
    rewrite Hline.
    rewrite startswith_hash by apply Hhead.
    rewrite bool_decide_eq_false_2 by (by destruct k). simpl.
    rewrite Hsplit, Hkey.
    replace (p3 ++ q ++ v ++ q) with (p3 ++ (q ++ v ++ q) ++ []) by (by rewrite app_nil_r).
    rewrite strip_padded by done.
    by rewrite unquote.
Qed.

(** *** The file and the key *)

Section EnvFile.

Variable putenv : pystr -> pystr -> putenv_outcome.
Variable client_ok : config -> bool.

Lemma load_env_lines_Ok (lines : list pystr) : forall (environ env' : gmap (list N) (list N)),
  load_env_lines putenv lines environ = Ok env' ->
  env' = assign environ (omap env_assignment lines).
Proof.
  induction lines as [| line rest IH]; intros environ env'; simpl.
  - by intros [= ->].
  - destruct (env_assignment line) as [[k v] |]; simpl; [| apply IH].
    destruct (putenv k v); [apply IH | done | done].
Qed.

Lemma load_env_lines_Raise (lines : list pystr) : forall (environ : gmap (list N) (list N)) e,
  load_env_lines putenv lines environ = Raise e -> e = ValueError \/ e = OSError.
Proof.
  induction lines as [| line rest IH]; intros environ e; simpl; [done |].
  destruct (env_assignment line) as [[k v] |]; simpl; [| apply IH].
  destruct (putenv k v); [apply IH | intros [= <-]; by left | intros [= <-]; by right].
Qed.

Lemma load_env_lines_accepted (lines : list pystr) : forall (environ : gmap (list N) (list N)),
  Forall (fun kv => putenv kv.1 kv.2 = PutenvOk) (omap env_assignment lines) ->
  load_env_lines putenv lines environ = Ok (assign environ (omap env_assignment lines)).
Proof.
  induction lines as [| line rest IH]; intros environ; simpl; [done |].
  destruct (env_assignment line) as [[k v] |]; simpl; [| apply IH].
  intros [Hkv H]%Forall_cons. simpl in Hkv. rewrite Hkv. by apply IH.
Qed.

Lemma lookup_assign (l : list (pystr * pystr)) (environ : gmap (list N) (list N)) (name : pystr) :
  assign environ l !! name
  = match last (filter (fun kv => kv.1 = name) l) with
    | Some kv => Some kv.2
    | None => environ !! name
    end.
Proof.
  induction l as [| [k v] l IH] using rev_ind; [done |].
  unfold assign. rewrite foldl_app. simpl. fold (assign environ l).
  rewrite filter_app, filter_cons, filter_nil. simpl.
  destruct (decide (k = name)) as [-> | Hne].
  - rewrite last_snoc. simpl. apply lookup_insert_eq.
  - rewrite app_nil_r. by rewrite lookup_insert_ne.
Qed.

Lemma filter_other (l : list (pystr * pystr)) (name : pystr) :
  name ∉ l.*1 -> filter (fun kv : pystr * pystr => kv.1 = name) l = [].
Proof.
  induction l as [| [k v] l IH]; [done |].
  rewrite fmap_cons, not_elem_of_cons. simpl. intros [Hne Hl].
  rewrite filter_cons. simpl. rewrite decide_False by done. by apply IH.
Qed.

(** X3: when the platform accepts every assignment of the file,
    [load_env_file] returns, without printing, with each variable holding
    the value given by the last line of the file that sets it, and the value
    the process had when no line sets it: the file overrides the environment
    of the process, and a later line overrides an earlier one. *)
Theorem env_file_overrides_environment (raw : pystr) (environ : gmap (list N) (list N)) :
  accepted putenv raw ->
  exists env',
    load_env_file putenv (Contents raw) environ = ([], Ok env')
    /\ (forall name, env' !! name = setting raw environ name)
    /\ (forall name, name ∉ (assignments raw).*1 -> env' !! name = environ !! name)
    /\ (forall l1 name v l2,
          assignments raw = l1 ++ (name, v) :: l2 -> name ∉ l2.*1 ->
          env' !! name = Some v).
Proof.
  intros Hacc. exists (assign environ (assignments raw)).
  assert (Hset : forall name, assign environ (assignments raw) !! name = setting raw environ name).
  { intros name. apply lookup_assign. }
  split_and!.
  - unfold load_env_file. by rewrite load_env_lines_accepted.
  - done.
  - intros name Hname. rewrite Hset. unfold setting.
    by rewrite filter_other.
  - intros l1 name v l2 Heq Hname. rewrite Hset. unfold setting. rewrite Heq.
    rewrite filter_app, filter_cons. simpl. rewrite decide_True by done.
    rewrite (filter_other l2) by done. by rewrite last_snoc.
Qed.

Section Run.

Variable json_loads : pystr -> option pyval.
Variable is_decimal : N -> bool.
Variable path_join : pystr -> pystr -> pystr.
Variable E : env.

(** X4: without a non-empty [SILICONFLOW_API_KEY] the program stops with
    exit status 1 before [main] is entered: nothing of [main] is printed, no
    request is sent and no file is written, whatever the arguments are
    ([--check-only] included).  This is so when [.env] is missing and the
    process has no key or an empty one, when [.env] cannot be read, and when
    the last line of [.env] that sets the key (the process, when no line
    does) gives no key or an empty one; an empty key in [.env] thus hides a
    key of the process. *)
Theorem api_key_is_required (dotenv : file_state) (environ : gmap (list N) (list N))
    (a : args) :
  match dotenv with
  | Contents raw =>
      setting raw environ (lit "SILICONFLOW_API_KEY") = None
      \/ setting raw environ (lit "SILICONFLOW_API_KEY") = Some []
  | Absent =>
      environ !! lit "SILICONFLOW_API_KEY" = None
      \/ environ !! lit "SILICONFLOW_API_KEY" = Some []
  | Unreadable => True
  end ->
  exists out e,
    program putenv client_ok json_loads is_decimal path_join E dotenv environ a
    = (out, (world0, Raise e))
    /\ exit_status (@Raise unit e) = 1%Z.
Proof.
  intros H. unfold program, module_init, load_env_file.
  destruct dotenv as [| | raw].
  - assert (default [] (environ !! lit "SILICONFLOW_API_KEY") = []) as ->
      by (by destruct H as [-> | ->]).
    by eexists _, _.
  - by eexists _, _.
  - destruct (load_env_lines putenv (file_lines [] raw) environ) as [env' | e] eqn:Hload.
    + apply load_env_lines_Ok in Hload. subst env'.
      rewrite (lookup_assign _ environ (lit "SILICONFLOW_API_KEY")).
      fold (assignments raw). fold (setting raw environ (lit "SILICONFLOW_API_KEY")).
      assert (default [] (setting raw environ (lit "SILICONFLOW_API_KEY")) = []) as ->
        by (by destruct H as [-> | ->]).
      by eexists _, _.
    + apply load_env_lines_Raise in Hload as [-> | ->]; by eexists _, _.
Qed.

(** X5: when the platform accepts every assignment of [.env] and the key
    given by the last line that sets [SILICONFLOW_API_KEY] (by the process,
    when no line does) is not empty, the configuration of the module holds
    this key and, as base URL, the value of [SILICONFLOW_BASE_URL] found in
    the same way, or [https://api.siliconflow.cn/v1] when it is set nowhere.
    Nothing is printed and, the client being built, the program goes on
    with [main]. *)
Theorem api_key_from_env_file (raw : pystr) (environ : gmap (list N) (list N))
    (a : args) (key : pystr) :
  accepted putenv raw ->
  setting raw environ (lit "SILICONFLOW_API_KEY") = Some key ->
  key <> [] ->
  (forall url, client_ok {| API_KEY := key; BASE_URL := url |} = true) ->
  module_init putenv (Contents raw) environ
  = ([], Ok {| API_KEY := key;
               BASE_URL := default (lit "https://api.siliconflow.cn/v1")
                             (setting raw environ (lit "SILICONFLOW_BASE_URL")) |})
  /\ program putenv client_ok json_loads is_decimal path_join E (Contents raw) environ a
     = ([], main json_loads is_decimal path_join E a world0).
Proof.
  intros Hacc Hkey Hne Hclient.
  assert (Hinit : module_init putenv (Contents raw) environ
    = ([], Ok {| API_KEY := key;
                 BASE_URL := default (lit "https://api.siliconflow.cn/v1")
                               (setting raw environ (lit "SILICONFLOW_BASE_URL")) |})).
  { unfold module_init, load_env_file.
    rewrite load_env_lines_accepted by done.
    rewrite !lookup_assign. fold (assignments raw).
    fold (setting raw environ (lit "SILICONFLOW_API_KEY")).
    fold (setting raw environ (lit "SILICONFLOW_BASE_URL")).
    rewrite Hkey. simpl. by destruct key. }
  split; [done |]. unfold program. rewrite Hinit. by rewrite Hclient.
Qed.

End Run.

End EnvFile.

Section Refused.

Variable putenv : pystr -> pystr -> putenv_outcome.
Variable client_ok : config -> bool.

Lemma load_env_lines_refused (lines : list pystr) :
  forall (environ : gmap (list N) (list N)),
  Exists (fun kv => putenv kv.1 kv.2 <> PutenvOk) (omap env_assignment lines) ->
  exists e, load_env_lines putenv lines environ = Raise e /\ (e = ValueError \/ e = OSError).
Proof.
  induction lines as [| line rest IH]; intros environ; simpl.
  - by intros H%Exists_nil.
  - destruct (env_assignment line) as [[k v] |]; simpl; [| apply IH].
    intros [Hkv | Hrest]%Exists_cons; simpl in *.
    + destruct (putenv k v); [done | by eexists; split; [| left] | by eexists; split; [| right]].
    + destruct (putenv k v); [by apply IH | by eexists; split; [| left]
                             | by eexists; split; [| right]].
Qed.

Variable json_loads : pystr -> option pyval.
Variable is_decimal : N -> bool.
Variable path_join : pystr -> pystr -> pystr.
Variable E : env.

(** X6: when the platform refuses an assignment of [.env] (an empty
    name, for one), the program stops with an uncaught [ValueError] or
    [OSError] and exit status 1 before [main] is entered, whatever key the
    file or the process gives. *)
Theorem refused_assignment_stops_the_program (raw : pystr)
    (environ : gmap (list N) (list N)) (a : args) :
  Exists (fun kv => putenv kv.1 kv.2 <> PutenvOk) (assignments raw) ->
  exists e,
    program putenv client_ok json_loads is_decimal path_join E (Contents raw) environ a
    = ([], (world0, Raise e))
    /\ (e = ValueError \/ e = OSError)
    /\ exit_status (@Raise unit e) = 1%Z.
Proof.
  intros H. destruct (load_env_lines_refused _ environ H) as (e & Hload & He).
  exists e. unfold program, module_init, load_env_file. rewrite Hload.
  split; [done |]. split; [done |]. by destruct He as [-> | ->].
Qed.

End Refused.

(** ** More on the parser *)




Lemma basename_app (acc name : pystr) :
  47 ∉ name ->
  fold_left (fun acc c => if c =? 47 then [] else acc ++ [c]) name acc = acc ++ name.
Proof.
  revert acc. induction name as [| c name IH]; intros acc Hn; simpl.
  - by rewrite app_nil_r.
  - apply not_elem_of_cons in Hn as [Hc Hn].
    destruct (N.eqb_spec c 47); [congruence |].
    rewrite IH by done. by rewrite <- app_assoc.
Qed.

Lemma basename_name (name : pystr) : 47 ∉ name -> basename name = name.
Proof. intros H. unfold basename. by rewrite basename_app. Qed.

Lemma basename_dir (dir name : pystr) : 47 ∉ name -> basename (dir ++ 47 :: name) = name.
Proof.
  intros H. unfold basename. rewrite fold_left_app. simpl.
  by rewrite basename_app.
Qed.

Lemma rfind_None c (s : pystr) : c ∉ s -> rfind c s = None.
Proof.
  induction s as [| x s IH]; simpl; [done |].
  intros [Hx Hs]%not_elem_of_cons. rewrite IH by done.
  destruct (N.eqb_spec x c); [congruence | done].
Qed.

Lemma rfind_last c (s t : pystr) : c ∉ t -> rfind c (s ++ c :: t) = Some (length s).
Proof.
  intros Ht. induction s as [| x s IH]; simpl.
  - rewrite rfind_None by done. by rewrite N.eqb_refl.
  - by rewrite IH.
Qed.

Lemma splitext_root_ext (stem ext : pystr) :
  46 ∉ ext -> forallb (N.eqb 46) stem = false ->
  splitext_root (stem ++ 46 :: ext) = stem.
Proof.
  intros Hext Hstem. unfold splitext_root. rewrite rfind_last by done.
  rewrite take_app_length. by rewrite Hstem.
Qed.

Lemma splitext_root_plain (name : pystr) : 46 ∉ name -> splitext_root name = name.
Proof. intros H. unfold splitext_root. by rewrite rfind_None. Qed.

Section More.

Variable json_loads : pystr -> option pyval.
Variable is_decimal : N -> bool.
Variable path_join : pystr -> pystr -> pystr.
Variable E : env.

Lemma parse_item_string_id (idx : nat) (s : pystr) (o : option pystr)
    (m : gmap (list N) (list N)) (w : world) :
  exists w',
    parse_item idx (PStr s) o m w
    = (w', Ok {| title := PStr (segment_name idx); script := PStr s;
                 arxiv_id := match m !! paper_key idx with
                             | Some v => v
                             | None => or_else o (unknown_name idx)
                             end;
                 channel_id := PStr [] |}).
Proof.
  unfold parse_item, parse_str_item, bind, ret, print.
  destruct (m !! paper_key idx); by eexists.
Qed.

Lemma item_segment_string (idx : nat) (s : pystr) (o : option pystr)
    (m : gmap (list N) (list N)) (seg : segment) :
  item_segment idx (PStr s) o m seg ->
  seg = {| title := PStr (segment_name idx); script := PStr s;
           arxiv_id := match m !! paper_key idx with
                       | Some v => v
                       | None => or_else o (unknown_name idx)
                       end;
           channel_id := PStr [] |}.
Proof.
  intros (w1 & w2 & H). destruct (parse_item_string_id idx s o m w1) as (w' & H').
  congruence.
Qed.

(** X7: a JSON array that mixes strings and objects (whose [title] and
    [arxiv_id], where present, are strings) is parsed into one segment per
    element, in order; the segment at index [i] is what the loop body yields
    for the [i]-th element alone.  For a string it has the title
    [segment_<i>], the string as script, an empty [channel_id] and, as
    identifier, the entry [paper_<i>] of the ID mapping when there is one
    (even if an override is given), else the override when it is not empty,
    else [unknown_<i>]. *)
Theorem mixed_array_to_segments (path : pystr) (o : option pystr)
    (m : gmap (list N) (list N)) (raw : pystr) (items : list pyval) (w : world) :
  script_files E path = Contents raw ->
  json_loads (strip raw) = Some (PList items) ->
  forallb supported items = true ->
  exists w' segs,
    parse_podcast_script json_loads is_decimal E path o m w = (w', Ok segs)
    /\ length segs = length items
    /\ (forall i item, items !! i = Some item ->
          exists seg, segs !! i = Some seg /\ item_segment i item o m seg)
    /\ (forall i s, items !! i = Some (PStr s) ->
          segs !! i
          = Some {| title := PStr (segment_name i); script := PStr s;
                    arxiv_id := match m !! paper_key i with
                                | Some v => v
                                | None => or_else o (unknown_name i)
                                end;
                    channel_id := PStr [] |}).
Proof.
  intros Hfile Hloads Hall.
  assert (Hjson : detect_json json_loads (strip raw) = Some items).
  { unfold detect_json. by rewrite Hloads. }
  destruct (parse_json_total json_loads is_decimal E path o m raw items w Hfile Hjson)
    as (w' & segs & Hparse & Hlen & Hsegs).
  { intros i item w1 Hi.
    rewrite forallb_forall in Hall.
    assert (Hs : supported item = true).
    { apply Hall, list_elem_of_In. by eapply list_elem_of_lookup_2. }
    destruct item as [| | | | s | | d]; try done.
    - destruct (parse_item_string_id i s o m w1) as (w2 & H2). by eexists _, _.
    - by apply parse_item_typed_object. }
  exists w', segs.
  assert (Hat : forall i item, items !! i = Some item ->
            exists seg, segs !! i = Some seg /\ item_segment i item o m seg).
  { intros i item Hi.
    destruct (lookup_lt_is_Some_2 segs i) as [seg Hseg].
    { rewrite Hlen. by eapply lookup_lt_Some. }
    exists seg. split; [done |]. by eapply Hsegs. }
  split_and!; [done | done | done |].
  intros i s Hi. destruct (Hat i _ Hi) as (seg & Hseg & Hitem).
  rewrite Hseg. f_equal. by apply item_segment_string.
Qed.


(** X9: for a Markdown script only the last component of the path counts.
    The title is the file name without its extension: the part before the
    last dot for a name [stem.ext] whose stem is not made of dots only, the
    whole name when it has no dot.  The identifier is the one the bare file
    name would give; a timestamp in a directory name is not used, so that
    without override, without [paper_0] and without timestamp in the file
    name itself the identifier is [podcast_<unix-timestamp>]. *)
Theorem markdown_title_from_file_name (path dir name : pystr) (o : option pystr)
    (m : gmap (list N) (list N)) (raw : pystr) (w : world) :
  script_files E path = Contents raw ->
  detect_json json_loads (strip raw) = None ->
  path = name \/ path = dir ++ 47 :: name ->
  47 ∉ name ->
  exists w' seg,
    parse_podcast_script json_loads is_decimal E path o m w = (w', Ok [seg])
    /\ (forall stem ext,
          name = stem ++ 46 :: ext -> 46 ∉ ext -> forallb (N.eqb 46) stem = false ->
          title seg = PStr stem)
    /\ (46 ∉ name -> title seg = PStr name)
    /\ (forall w0, markdown_arxiv_id is_decimal E path o m w0
                   = markdown_arxiv_id is_decimal E name o m w0)
    /\ (o = None \/ o = Some [] ->
        m !! lit "paper_0" = None ->
        re_search (timestamp_pattern is_decimal) name = None ->
        arxiv_id seg = lit "podcast_" ++ str_of_Z (unix_time E)).
Proof.
  intros Hfile Hjson Hpath Hname.
  assert (Hbase : basename path = name).
  { destruct Hpath as [-> | ->]; [by apply basename_name | by apply basename_dir]. }
  assert (Hbase' : basename name = name) by (by apply basename_name).
  rewrite (parse_markdown json_loads is_decimal E _ _ _ _ _ Hfile Hjson).
  destruct (markdown_arxiv_id_Ok is_decimal E path o m (print MsgMarkdownDetected w).1)
    as (w1 & id & Hid).
  rewrite Hid. eexists _, _. split; [done |]. simpl. rewrite Hbase.
  split_and!.
  - intros stem ext -> Hext Hstem. by rewrite splitext_root_ext.
  - intros Hplain. by rewrite splitext_root_plain.
  - intros w0. unfold markdown_arxiv_id. by rewrite Hbase, Hbase'.
  - intros Ho Hm Hre. unfold markdown_arxiv_id in Hid. rewrite Hbase, Hm, Hre in Hid.
    unfold ret in Hid. destruct Ho as [-> | ->]; by simplify_eq.
Qed.

End More.

(** ** Runs that differ on the console only *)

Lemma same_effects_refl w : same_effects w w.
Proof. done. Qed.

Lemma alike_ret {A} (a : A) : alike (ret a) (ret a).
Proof. by intros w1 w2 H. Qed.

Lemma alike_raise {A} e : alike (@raise A e) (raise e).
Proof. by intros w1 w2 H. Qed.

Lemma alike_print e1 e2 : alike (print e1) (print e2).
Proof. by intros w1 w2 H. Qed.

Lemma alike_print_l e : alike (print e) (ret tt).
Proof. by intros w1 w2 H. Qed.

Lemma alike_print_r e : alike (ret tt) (print e).
Proof. by intros w1 w2 H. Qed.

Lemma alike_bind_post {A B} (P : A -> Prop) (m1 m2 : M A) (f1 f2 : A -> M B) :
  (forall w w' a, m1 w = (w', Ok a) -> P a) ->
  alike m1 m2 -> (forall a, P a -> alike (f1 a) (f2 a)) ->
  alike (bind m1 f1) (bind m2 f2).
Proof.
  intros HP Hm Hf w1 w2 Hw. unfold bind. specialize (Hm w1 w2 Hw).
  destruct (m1 w1) as [w1' [a | e]] eqn:H1, (m2 w2) as [w2' [a' | e']];
    simpl in Hm; destruct Hm as [Heq Hs]; simplify_eq; [| done].
  apply Hf; [by eapply HP | done].
Qed.

Lemma alike_bind {A B} (m1 m2 : M A) (f1 f2 : A -> M B) :
  alike m1 m2 -> (forall a, alike (f1 a) (f2 a)) -> alike (bind m1 f1) (bind m2 f2).
Proof.
  intros Hm Hf. apply (alike_bind_post (fun _ => True)); [done | done |].
  intros a _. apply Hf.
Qed.

Lemma alike_when b (m1 m2 : M unit) : alike m1 m2 -> alike (when b m1) (when b m2).
Proof. destruct b; [done | intros _; apply alike_ret]. Qed.

Lemma alike_when_print b1 b2 e1 e2 : alike (when b1 (print e1)) (when b2 (print e2)).
Proof. by destruct b1, b2; intros w1 w2 H. Qed.

Lemma alike_try_except {A} (b1 b2 : M A) h1 h2 :
  alike b1 b2 -> (forall e, alike (h1 e) (h2 e)) ->
  alike (try_except b1 h1) (try_except b2 h2).
Proof.
  intros Hb Hh w1 w2 Hw. unfold try_except. specialize (Hb w1 w2 Hw).
  destruct (b1 w1) as [w1' [a | e]], (b2 w2) as [w2' [a' | e']];
    simpl in Hb; destruct Hb as [Heq Hs]; simplify_eq; [done |].
  destruct (is_Exception e'); [by apply Hh | done].
Qed.

Ltac alike_tac :=
  repeat first
    [ apply alike_ret | apply alike_raise | apply alike_print
    | apply alike_when | apply alike_bind | apply alike_try_except
    | match goal with |- forall _, _ => intros ? end
    | case_match ].

Section Alike.

Variable json_loads : pystr -> option pyval.
Variable is_decimal : N -> bool.
Variable path_join : pystr -> pystr -> pystr.
Variable E : env.

Lemma alike_request_speech text refs :
  alike (request_speech E text refs) (request_speech E text refs).
Proof.
  intros w1 w2 [Hr Hw]. unfold request_speech. rewrite Hr.
  destruct (tts E _ _ _); simpl; split; try done; split; simpl; congruence.
Qed.

Lemma alike_write_audio path data :
  alike (write_audio E path data) (write_audio E path data).
Proof.
  intros w1 w2 [Hr Hw]. unfold write_audio.
  destruct (can_write E path); simpl; split; try done; split; simpl; congruence.
Qed.

Lemma alike_write_report path r : alike (write_report path r) (write_report path r).
Proof.
  intros w1 w2 [Hr Hw]. unfold write_report. simpl. split; [done |].
  split; simpl; congruence.
Qed.

Lemma alike_load_voice_references :
  alike (load_voice_references E) (load_voice_references E).
Proof. unfold load_voice_references, load_reference. alike_tac. Qed.

Lemma alike_parse_item idx item o m :
  alike (parse_item idx item o m) (parse_item idx item o m).
Proof. unfold parse_item, parse_dict_item, parse_str_item. alike_tac. Qed.

Lemma alike_parse_items items : forall idx o m acc,
  alike (parse_items idx items o m acc) (parse_items idx items o m acc).
Proof.
  induction items as [| item rest IH]; intros idx o m acc; simpl.
  - apply alike_ret.
  - apply alike_bind; [apply alike_parse_item | intros seg; apply IH].
Qed.

Lemma alike_parse_podcast_script path o m :
  alike (parse_podcast_script json_loads is_decimal E path o m)
        (parse_podcast_script json_loads is_decimal E path o m).
Proof.
  unfold parse_podcast_script, read_script, markdown_arxiv_id.
  destruct (script_files E path); alike_tac; apply alike_parse_items.
Qed.

Lemma alike_generate_audio text refs path v1 v2 :
  alike (generate_audio E text refs path v1) (generate_audio E text refs path v2).
Proof.
  unfold generate_audio. apply alike_try_except.
  - apply alike_bind; [apply alike_when_print |]. intros _.
    apply alike_bind; [apply alike_request_speech |]. intros data.
    apply alike_bind; [apply alike_write_audio |]. intros _. apply alike_ret.
  - intros e. alike_tac.
Qed.

Lemma alike_print_details idx s v1 v2 :
  v1 = v2 \/ has_len (script s) = true ->
  alike (when v1 (print_details idx s)) (when v2 (print_details idx s)).
Proof.
  intros [-> | Hlen].
  - apply alike_when. unfold print_details. alike_tac.
  - unfold print_details. rewrite Hlen. by destruct v1, v2; intros w1 w2 H.
Qed.

End Alike.


Lemma with_verbose_id (a : args) : with_verbose (arg_verbose a) a = a.
Proof. by destruct a. Qed.

Section Runs.

Variable json_loads : pystr -> option pyval.
Variable is_decimal : N -> bool.
Variable path_join : pystr -> pystr -> pystr.

Lemma alike_load_arxiv_mapping (E : env) (f1 f2 : mapping_file) :
  mapping_of f1 = mapping_of f2 ->
  alike (load_arxiv_mapping (with_mapping f1 E)) (load_arxiv_mapping (with_mapping f2 E)).
Proof.
  intros H. unfold load_arxiv_mapping. simpl.
  destruct f1, f2; simpl in H; subst; by intros w1 w2 Hw.
Qed.

Lemma alike_process_segment (E : env) (a : args) refs idx s t v1 v2 :
  v1 = v2 \/ has_len (script s) = true ->
  alike (process_segment path_join E (with_verbose v1 a) refs idx s t)
        (process_segment path_join E (with_verbose v2 a) refs idx s t).
Proof.
  intros H. unfold process_segment.
  change (output_path_of path_join (with_verbose v1 a) s) with (output_path_of path_join a s).
  change (output_path_of path_join (with_verbose v2 a) s) with (output_path_of path_join a s).
  change (outcome_of path_join (with_verbose v1 a) s) with (outcome_of path_join a s).
  change (outcome_of path_join (with_verbose v2 a) s) with (outcome_of path_join a s).
  change (arg_verbose (with_verbose v1 a)) with v1.
  change (arg_verbose (with_verbose v2 a)) with v2.
  apply alike_bind; [by apply alike_print_details |]. intros _.
  apply alike_bind; [apply alike_generate_audio |]. intros ok.
  destruct ok; [destruct (sliceable (title s)) |]; alike_tac.
Qed.

Lemma alike_synthesize (E : env) (a : args) refs v1 v2 segs : forall idx t,
  v1 = v2 \/ Forall (fun s => has_len (script s) = true) segs ->
  alike (synthesize path_join E (with_verbose v1 a) refs idx segs t)
        (synthesize path_join E (with_verbose v2 a) refs idx segs t).
Proof.
  induction segs as [| s rest IH]; intros idx t H; simpl.
  - apply alike_ret.
  - apply alike_bind.
    + apply alike_process_segment. destruct H as [-> | H]; [by left | right].
      by apply Forall_cons in H as [? _].
    + intros t'. apply IH. destruct H as [-> | H]; [by left | right].
      by apply Forall_cons in H as [_ ?].
Qed.

Lemma alike_main (E : env) (a : args) (f1 f2 : mapping_file) (v1 v2 : bool) :
  mapping_of f1 = mapping_of f2 ->
  v1 = v2
  \/ (forall m w0 w1 segs,
        parse_podcast_script json_loads is_decimal E (arg_script a) None m w0 = (w1, Ok segs) ->
        Forall (fun s => has_len (script s) = true) segs) ->
  alike (main json_loads is_decimal path_join (with_mapping f1 E) (with_verbose v1 a))
        (main json_loads is_decimal path_join (with_mapping f2 E) (with_verbose v2 a)).
Proof.
  intros Hf Hv. unfold main.
  change (arg_check_only (with_verbose v1 a)) with (arg_check_only a).
  change (arg_check_only (with_verbose v2 a)) with (arg_check_only a).
  apply alike_bind; [apply alike_print |]. intros _.
  destruct (arg_check_only a); [apply alike_print |].
  apply alike_bind; [apply (alike_load_voice_references E) |]. intros refs.
  apply alike_bind; [apply alike_print |]. intros _.
  apply alike_bind_post with (P := fun m => True); [done | by apply alike_load_arxiv_mapping |].
  intros m _.
  apply alike_bind_post
    with (P := fun segs => v1 = v2 \/ Forall (fun s => has_len (script s) = true) segs).
  - intros w w' segs Hparse. destruct Hv as [-> | Hv]; [by left | right].
    by apply (Hv m w w' segs).
  - apply (alike_parse_podcast_script json_loads is_decimal E).
  - intros segs Hsegs.
    apply alike_bind; [apply alike_print |]. intros _.
    apply alike_bind; [by apply (alike_synthesize E) |]. intros t.
    apply alike_bind; [apply alike_print |]. intros _.
    apply alike_bind; [apply alike_write_report |]. intros _.
    apply alike_bind; [apply alike_print |]. intros _.
    destruct (0 <? failed_count t)%nat; alike_tac.
Qed.

Variable E : env.


(** X11: an [arxiv_mapping.json] that cannot be read or decoded is not
    fatal and counts as absent: but for the console output the run is the
    one without mapping file, with the same outcome, the same requests and
    the same files, the report among them. *)
Theorem broken_mapping_file_is_like_none (a : args) (w : world) :
  (main json_loads is_decimal path_join (with_mapping MappingBroken E) a w).2
  = (main json_loads is_decimal path_join (with_mapping MappingAbsent E) a w).2
  /\ requests (main json_loads is_decimal path_join (with_mapping MappingBroken E) a w).1
     = requests (main json_loads is_decimal path_join (with_mapping MappingAbsent E) a w).1
  /\ written (main json_loads is_decimal path_join (with_mapping MappingBroken E) a w).1
     = written (main json_loads is_decimal path_join (with_mapping MappingAbsent E) a w).1.
Proof.
  pose proof (alike_main E a MappingBroken MappingAbsent (arg_verbose a) (arg_verbose a)
                eq_refl (or_introl eq_refl) w w (same_effects_refl w)) as Hmain.
  rewrite with_verbose_id in Hmain. destruct Hmain as [? [? ?]]. done.
Qed.

End Runs.

(** ** The files the loop writes *)

Section Files.

Variable json_loads : pystr -> option pyval.
Variable is_decimal : N -> bool.
Variable path_join : pystr -> pystr -> pystr.
Variable E : env.








End Files.

Section Disk.

Variable json_loads : pystr -> option pyval.
Variable is_decimal : N -> bool.
Variable path_join : pystr -> pystr -> pystr.
Variable E : env.



End Disk.

(** ** A voice sample that cannot be read *)

Section Samples.

Variable json_loads : pystr -> option pyval.
Variable is_decimal : N -> bool.
Variable path_join : pystr -> pystr -> pystr.
Variable E : env.

Lemma load_voice_references_unreadable (w : world) :
  female_base64_txt E = Unreadable \/ male_base64_txt E = Unreadable ->
  exists w', load_voice_references E w = (w', Raise OSError).
Proof.
  unfold load_voice_references, load_reference, bind, ret, raise, print.
  intros [H | H]; rewrite H; [by eexists |].
  destruct (female_base64_txt E); by eexists.
Qed.

(** X15: a voice sample file that exists but cannot be read is not
    skipped: [load_voice_references] raises, even when the other sample was
    loaded, and the run ends with exit status 1 without any request sent or
    file written. *)
Theorem unreadable_sample_ends_the_run (a : args) (w : world) :
  female_base64_txt E = Unreadable \/ male_base64_txt E = Unreadable ->
  arg_check_only a = false ->
  exists w',
    main json_loads is_decimal path_join E a w = (w', Raise OSError)
    /\ exit_status (main json_loads is_decimal path_join E a w).2 = 1%Z
    /\ requests w' = requests w
    /\ written w' = written w.
Proof.
  intros Hfile Hcheck.
  destruct (load_voice_references_unreadable (print MsgBanner w).1 Hfile) as (w' & Hload).
  assert (Hstart : startup json_loads is_decimal E a (print MsgBanner w).1
                   = (w', Raise OSError)).
  { unfold startup. by rewrite (bind_Raise _ _ _ _ _ Hload). }
  pose proof (quiet_startup json_loads is_decimal E a (print MsgBanner w).1) as [Hr Hw].
  rewrite Hstart in Hr, Hw. simpl in Hr, Hw.
  exists w'.
  rewrite (main_startup_Raise json_loads is_decimal path_join E a w w' OSError Hcheck Hstart).
  done.
Qed.

End Samples.

(** ** The theorems on concrete scripts *)

Import Sample.

(** The script [['hi', 7]]: the number stops the parser and the run. *)
Lemma unsupported_element_aborts_witness :
  (exists w',
      parse_podcast_script loads ascii_digit
        (env_of (one_file script_json text_number) answers)
        (arg_script (args_of script_json)) None ∅ world0
      = (w', Raise (SystemExit 1)))
  /\ exit_status (main loads ascii_digit join
                    (env_of (one_file script_json text_number) answers)
                    (args_of script_json) world0).2 = 1%Z
  /\ requests (main loads ascii_digit join
                 (env_of (one_file script_json text_number) answers)
                 (args_of script_json) world0).1 = requests world0
  /\ written (main loads ascii_digit join
                (env_of (one_file script_json text_number) answers)
                (args_of script_json) world0).1 = written world0.
Proof.
  destruct (unsupported_element_aborts loads ascii_digit join
              (env_of (one_file script_json text_number) answers)
              (args_of script_json) text_number [PStr (lit "hi"); PInt 7]
              None ∅ world0) as [Hparse Hmain].
  - vm_compute. reflexivity.
  - vm_compute. reflexivity.
  - reflexivity.
  - split; [exact Hparse | exact (Hmain eq_refl)].
Defined.




(** The two objects of [text_objects] and the two strings of [text_strings]
    give two segments each. *)
Lemma array_elements_to_segments_witness :
  (exists w' segs,
      parse_podcast_script loads ascii_digit env_fine script_json None ∅ world0
      = (w', Ok segs)
      /\ length segs = 2%nat
      /\ segs !! 1%nat = segments_plain !! 1%nat)
  /\ (exists w' segs,
         parse_podcast_script loads ascii_digit
           (env_of (one_file script_json text_strings) answers) script_json None ∅ world0
         = (w', Ok segs)
         /\ length segs = 2%nat
         /\ exists seg,
              segs !! 1%nat = Some seg
              /\ title seg = PStr (segment_name 1)
              /\ script seg = PStr (lit "[S2]b")
              /\ channel_id seg = PStr []).
Proof.
  split.
  - destruct (array_elements_to_segments loads ascii_digit env_fine script_json None ∅
                text_objects (PDict <$> objects) world0) as [Hobjects _].
    + vm_compute. reflexivity.
    + vm_compute. reflexivity.
    + destruct (Hobjects objects) as (w' & segs & Hparse & Hlen & _).
      * reflexivity.
      * vm_compute. reflexivity.
      * exists w', segs. split; [exact Hparse |]. split; [exact Hlen |].
        assert (Ok segs = Ok segments_plain) as [= ->]; [| reflexivity].
        change (Ok segs) with (w', Ok segs).2. rewrite <- Hparse.
        vm_compute. reflexivity.
  - destruct (array_elements_to_segments loads ascii_digit
                (env_of (one_file script_json text_strings) answers) script_json None ∅
                text_strings (PStr <$> strings) world0) as [_ Hstrings].
    + vm_compute. reflexivity.
    + vm_compute. reflexivity.
    + destruct (Hstrings strings) as (w' & segs & Hparse & Hlen & Hsegs).
      * reflexivity.
      * exists w', segs. split; [exact Hparse |]. split; [exact Hlen |].
        apply (Hsegs 1%nat). reflexivity.
Defined.

(** The dialogue stored as [notes_2025-10-05 14-30-00.md]. *)
Lemma markdown_identifier_priority_witness :
  exists w' seg,
    parse_podcast_script loads ascii_digit
      (env_of (one_file script_md text_dialogue) answers) script_md None ∅ world0
    = (w', Ok [seg])
    /\ arxiv_id seg = lit "2025-10-05-14-30-00".
Proof.
  destruct (markdown_identifier_priority loads ascii_digit
              (env_of (one_file script_md text_dialogue) answers) script_md None ∅
              text_dialogue world0)
    as (w' & seg & Hparse & _ & Hid).
  - vm_compute. reflexivity.
  - vm_compute. reflexivity.
  - exists w', seg. split; [exact Hparse |].
    destruct Hid as [_ Hid]; [by left |].
    destruct Hid as (_ & _ & Hexample); [by rewrite lookup_empty |].
    apply Hexample; [reflexivity |]. vm_compute. reflexivity.
Defined.

(** Both sample files present, and none of them. *)
Lemma voice_references_from_text_files_witness :
  (exists w',
      load_voice_references env_fine world0 = (w', Ok references))
  /\ (exists w',
         load_voice_references env_without_samples world0 = (w', Raise (SystemExit 1))
         /\ WarnNoFemaleReference ∈ stdout w'
         /\ WarnNoMaleReference ∈ stdout w')
  /\ exit_status (main loads ascii_digit join env_without_samples
                    (args_of script_json) world0).2 = 1%Z
  /\ requests (main loads ascii_digit join env_without_samples
                 (args_of script_json) world0).1 = requests world0.
Proof.
  split; [| split].
  - destruct (voice_references_from_text_files loads ascii_digit join env_fine
                (args_of script_json) world0) as (w' & Hload & _);
      [discriminate | discriminate |].
    exists w'. rewrite Hload. vm_compute. reflexivity.
  - destruct (voice_references_from_text_files loads ascii_digit join
                env_without_samples (args_of script_json) world0)
      as (w' & Hload & _ & Hf & Hm & _); [discriminate | discriminate |].
    exists w'. split; [exact Hload |]. split; [exact (Hf eq_refl) | exact (Hm eq_refl)].
  - destruct (voice_references_from_text_files loads ascii_digit join
                env_without_samples (args_of script_json) world0)
      as (w' & _ & _ & _ & _ & Hmain); [discriminate | discriminate |].
    destruct (Hmain eq_refl eq_refl eq_refl) as (Hexit & Hreq & _).
    split; [exact Hexit | exact Hreq].
Defined.

(** One failed segment out of two gives status 1; none gives status 0. *)
Lemma exit_status_reflects_failures_witness :
  exit_status (main loads ascii_digit join env_mixed (args_of script_json) world0).2 = 1%Z
  /\ exit_status (main loads ascii_digit join env_fine (args_of script_json) world0).2 = 0%Z.
Proof.
  split.
  - apply (exit_status_reflects_failures loads ascii_digit join env_mixed
             (args_of script_json)
             (main loads ascii_digit join env_mixed (args_of script_json) world0).1
             (main loads ascii_digit join env_mixed (args_of script_json) world0).2
             report_mixed).
    + apply surjective_pairing.
    + vm_compute. reflexivity.
    + vm_compute. lia.
  - apply (exit_status_reflects_failures loads ascii_digit join env_fine
             (args_of script_json)
             (main loads ascii_digit join env_fine (args_of script_json) world0).1
             (main loads ascii_digit join env_fine (args_of script_json) world0).2
             report_fine).
    + apply surjective_pairing.
    + vm_compute. reflexivity.
    + reflexivity.
Defined.

(** The report of the run in which the second segment fails. *)
Lemma report_consistent_witness :
  exists refs segs m wa wb,
    parse_podcast_script loads ascii_digit env_mixed
      (arg_script (args_of script_json)) None m wa = (wb, Ok segs)
    /\ success report_mixed = length (files report_mixed)
    /\ (success report_mixed + failed report_mixed = length segs)%nat
    /\ files report_mixed
       = outcome_of join (args_of script_json)
           <$> successful join env_mixed (args_of script_json) refs 0 segs
    /\ successful join env_mixed (args_of script_json) refs 0 segs `sublist_of` segs
    /\ requests (main loads ascii_digit join env_mixed (args_of script_json) world0).1
       = (fun s => (script s, refs)) <$> segs.
Proof.
  apply (report_consistent loads ascii_digit join env_mixed (args_of script_json)
           (main loads ascii_digit join env_mixed (args_of script_json) world0).1
           (main loads ascii_digit join env_mixed (args_of script_json) world0).2
           report_mixed).
  - apply surjective_pairing.
  - vm_compute. reflexivity.
Defined.



(** A line with white space and a quoted value that holds a space and [=]. *)
Lemma env_line_round_trip_witness :
  env_assignment (lit "  SILICONFLOW_API_KEY = " ++ 34 :: lit "sk-a b=c" ++ [34; 32; 10])
  = Some (lit "SILICONFLOW_API_KEY", lit "sk-a b=c").
Proof.
  refine (env_line_round_trip [32; 32] (lit "SILICONFLOW_API_KEY") [32] [32] [34]
            (lit "sk-a b=c") [32; 10] eq_refl eq_refl eq_refl eq_refl _ _ eq_refl _
            (or_intror (or_introl eq_refl)) eq_refl _).
  - discriminate.
  - apply (bool_decide_unpack _). vm_compute. exact I.
  - discriminate.
  - discriminate.
Defined.

(** The file [dotenv] on top of [environ]: the key of the last line wins
    over the first one and over the one of the process; [HOME] is kept. *)
Lemma env_file_overrides_environment_witness :
  accepted putenv_any dotenv
  /\ exists env',
       load_env_file putenv_any (Contents dotenv) environ = ([], Ok env')
       /\ env' !! lit "SILICONFLOW_API_KEY" = Some (lit "sk-new")
       /\ env' !! lit "HOME" = Some (lit "/root").
Proof.
  assert (Hacc : accepted putenv_any dotenv).
  { apply Forall_forall. intros kv _. reflexivity. }
  split; [exact Hacc |].
  destruct (env_file_overrides_environment putenv_any dotenv environ Hacc)
    as (env' & Hload & Hset & _).
  exists env'. split; [exact Hload |].
  split; rewrite Hset; vm_compute; reflexivity.
Defined.

(** An empty key in [.env] hides the key of the process. *)
Lemma api_key_is_required_witness :
  exists out e,
    program putenv_any client_any loads ascii_digit join env_fine
      (Contents dotenv_blank_key) environ (args_of script_json)
    = (out, (world0, Raise e))
    /\ exit_status (@Raise unit e) = 1%Z.
Proof.
  apply (api_key_is_required putenv_any client_any loads ascii_digit join env_fine
           (Contents dotenv_blank_key) environ (args_of script_json)).
  right. vm_compute. reflexivity.
Defined.

(** The key and the URL of [dotenv]. *)
Lemma api_key_from_env_file_witness :
  module_init putenv_any (Contents dotenv) environ
  = ([], Ok {| API_KEY := lit "sk-new"; BASE_URL := lit "https://example.org/v1?a=b" |})
  /\ program putenv_any client_any loads ascii_digit join env_fine (Contents dotenv)
       environ (args_of script_json)
     = ([], main loads ascii_digit join env_fine (args_of script_json) world0).
Proof.
  destruct (api_key_from_env_file putenv_any client_any loads ascii_digit join env_fine
              dotenv environ (args_of script_json) (lit "sk-new")) as [Hinit Hprog].
  - apply Forall_forall. intros kv _. reflexivity.
  - vm_compute. reflexivity.
  - discriminate.
  - reflexivity.
  - split; [| exact Hprog]. rewrite Hinit. vm_compute. reflexivity.
Defined.

(** The array [text_mixed] with [mapping]: the object is found by its title,
    the first string by its position, the second string keeps its
    placeholder. *)
Lemma mixed_array_to_segments_witness :
  exists w' segs,
    parse_podcast_script loads_mixed ascii_digit
      (env_of (one_file script_json text_mixed) answers) script_json None mapping world0
    = (w', Ok segs)
    /\ length segs = 3%nat
    /\ arxiv_id <$> segs = [lit "2401.00001"; lit "2310.12345"; lit "unknown_2"].
Proof.
  destruct (mixed_array_to_segments loads_mixed ascii_digit
              (env_of (one_file script_json text_mixed) answers) script_json None mapping
              text_mixed
              [obj [(lit "title", PStr (lit "A B"))]; PStr (lit "[S1]a"); PStr (lit "[S2]b")]
              world0)
    as (w' & segs & Hparse & Hlen & _).
  - vm_compute. reflexivity.
  - vm_compute. reflexivity.
  - vm_compute. reflexivity.
  - exists w', segs. split; [exact Hparse |]. split; [exact Hlen |].
    change segs with (from_option id [] (match (w', @Ok (list segment) segs).2 with
                                          | Ok l => Some l
                                          | Raise _ => None
                                          end)).
    rewrite <- Hparse. vm_compute. reflexivity.
Defined.


(** The dialogue stored as [podcast.md] in a directory named after a date. *)
Lemma markdown_title_from_file_name_witness :
  exists w' seg,
    parse_podcast_script loads ascii_digit
      (env_of (one_file script_dated_dir text_dialogue) answers) script_dated_dir None ∅
      world0
    = (w', Ok [seg])
    /\ title seg = PStr (lit "podcast")
    /\ arxiv_id seg = lit "podcast_1759674600".
Proof.
  destruct (markdown_title_from_file_name loads ascii_digit
              (env_of (one_file script_dated_dir text_dialogue) answers)
              script_dated_dir (lit "2025-10-05 14-30-00") (lit "podcast.md") None ∅
              text_dialogue world0)
    as (w' & seg & Hparse & Hstem & _ & _ & Hid).
  - vm_compute. reflexivity.
  - vm_compute. reflexivity.
  - right. vm_compute. reflexivity.
  - apply (bool_decide_unpack _). vm_compute. exact I.
  - exists w', seg. split; [exact Hparse |]. split.
    + apply (Hstem (lit "podcast") (lit "md")).
      * vm_compute. reflexivity.
      * apply (bool_decide_unpack _). vm_compute. exact I.
      * vm_compute. reflexivity.
    + rewrite Hid; [vm_compute; reflexivity | by left | reflexivity |].
      vm_compute. reflexivity.
Defined.



(** The female sample is loaded, the male one cannot be read. *)
Lemma unreadable_sample_ends_the_run_witness :
  exists w',
    main loads ascii_digit join env_unreadable (args_of script_json) world0
    = (w', Raise OSError)
    /\ exit_status (main loads ascii_digit join env_unreadable (args_of script_json)
                      world0).2 = 1%Z
    /\ requests w' = requests world0
    /\ written w' = written world0.
Proof.
  apply (unreadable_sample_ends_the_run loads ascii_digit join env_unreadable
           (args_of script_json) world0); [by right | reflexivity].
Defined.

(** The second line of [dotenv_nameless] has no name. *)
Lemma refused_assignment_stops_the_program_witness :
  exists e,
    program putenv_named client_any loads ascii_digit join env_fine
      (Contents dotenv_nameless) environ (args_of script_json)
    = ([], (world0, Raise e))
    /\ (e = ValueError \/ e = OSError)
    /\ exit_status (@Raise unit e) = 1%Z.
Proof.
  apply (refused_assignment_stops_the_program putenv_named client_any loads ascii_digit
           join env_fine dotenv_nameless environ (args_of script_json)).
  assert (Heq : assignments dotenv_nameless
                = [(lit "SILICONFLOW_API_KEY", lit "sk-new"); ([], lit "oops")]).
  { vm_compute. reflexivity. }
  rewrite Heq. apply Exists_cons_tl, Exists_cons_hd. discriminate.
Defined.



(** ** Where the code departs from the specification *)



(** The object [{'script': null}] gives a segment whose script is null, and
    the array [[{'title': 5}]] of one object gives no segment: the parser
    exits. *)
Lemma null_field_is_kept :
  (parse_podcast_script loads ascii_digit
     (env_of (one_file script_json text_null) answers) script_json None ∅ world0).2
  = Ok [ {| title := PStr (lit "segment_0"); script := PNone;
            arxiv_id := lit "unknown_0"; channel_id := PStr [] |} ]
  /\ (parse_podcast_script loads ascii_digit
        (env_of (one_file script_json text_numeric_title) answers)
        script_json None ∅ world0).2
     = Raise (SystemExit 1).
Proof. split_and!; vm_compute; reflexivity. Qed.

(** The sample file holds the text [QUJD]; the loader passes it on as it is,
    where encoding the bytes of the file would give [UVVKRA==]. *)
Lemma reference_is_not_encoded_by_loader :
  (load_voice_references env_fine world0).2 = Ok references
  /\ audio <$> references !! 0%nat = Some (data_uri_prefix ++ lit "QUJD")
  /\ spec_audio_field (lit "QUJD") = data_uri_prefix ++ lit "UVVKRA=="
  /\ data_uri_prefix ++ lit "QUJD" <> spec_audio_field (lit "QUJD").
Proof.
  split_and!; try (vm_compute; reflexivity).
  intros H. vm_compute in H. discriminate.
Qed.
